(** * UID whitelist backend (backend_server.py): model and verified properties

    The Flask handlers of [backend_server.py] are embedded as functions in a
    small state monad over a [World]: the JSON files on disk, the wall clock,
    the outcome of each disk write and a log of every file access.

    Conventions of the embedding:
    - strings are ASCII strings; [str.strip], [str.upper], [str.lower] and
      [str.isdigit] are modelled on ASCII characters;
    - JSON numbers are integers ([Z]); request fields are typed
      ([option string], [option Z]) where [None] is an absent key;
    - a whitelist ([{uid: expiry}]) is a Python dict, modelled as an
      insertion-ordered association list with the dict's update rules;
    - [users.json] is a finite map from user id to a record whose two keys
      ([coins], [history]) may each be absent. *)

From Stdlib Require Import ZArith List Ascii String Sorted Permutation Lia.
From stdpp Require Import base option list gmap strings fin_maps.

Local Open Scope string_scope.
Local Open Scope Z_scope.

(** ** Python string methods on ASCII strings *)

Module PyStr.

Definition code (a : ascii) : N := N_of_ascii a.

(** [c.isdigit()] for an ASCII character: '0'..'9'. *)
Definition is_digit (a : ascii) : bool :=
  ((48 <=? code a) && (code a <=? 57))%N.

(** [c.isspace()] for an ASCII character: TAB, LF, VT, FF, CR, the four
    separators FS, GS, RS, US and the space. *)
Definition is_space (a : ascii) : bool :=
  ((9 <=? code a) && (code a <=? 13)
   || (28 <=? code a) && (code a <=? 31)
   || (code a =? 32))%N.

Fixpoint all_digits (s : string) : bool :=
  match s with
  | EmptyString => true
  | String a s' => is_digit a && all_digits s'
  end.

(** [s.isdigit()]: false on the empty string. *)
Definition isdigit (s : string) : bool :=
  match s with
  | EmptyString => false
  | _ => all_digits s
  end.

(** [not s]: a string is falsy exactly when it is empty. *)
Definition is_empty (s : string) : bool :=
  match s with
  | EmptyString => true
  | _ => false
  end.

Fixpoint lstrip (s : string) : string :=
  match s with
  | EmptyString => EmptyString
  | String a s' => if is_space a then lstrip s' else s
  end.

Fixpoint rstrip (s : string) : string :=
  match s with
  | EmptyString => EmptyString
  | String a s' =>
      let r := rstrip s' in
      if is_space a && is_empty r then EmptyString else String a r
  end.

(** [s.strip()] *)
Definition strip (s : string) : string := rstrip (lstrip s).

Definition upper_char (a : ascii) : ascii :=
  if ((97 <=? code a) && (code a <=? 122))%N
  then ascii_of_N (code a - 32) else a.

Definition lower_char (a : ascii) : ascii :=
  if ((65 <=? code a) && (code a <=? 90))%N
  then ascii_of_N (code a + 32) else a.

Fixpoint map_chars (f : ascii -> ascii) (s : string) : string :=
  match s with
  | EmptyString => EmptyString
  | String a s' => String (f a) (map_chars f s')
  end.

(** [s.upper()] and [s.lower()] *)
Definition upper : string -> string := map_chars upper_char.
Definition lower : string -> string := map_chars lower_char.

End PyStr.

(** ** Configuration *)

Definition WHITELIST_DIR : string := "whitelists".
Definition ALL_REGIONS : list string :=
  ["ME"; "IND"; "ID"; "VN"; "TH"; "BD"; "PK"; "TW"; "EU"; "CIS"; "NA"; "SAC"; "BR"].
Definition COIN_COST_PER_UID : Z := 100.
Definition DEFAULT_WHITELIST_HOURS : Z := 24.

(** [os.path.join(WHITELIST_DIR, f"whitelist_{region.lower()}.json")] *)
Definition get_whitelist_path (region : string) : string :=
  WHITELIST_DIR +:+ "/" +:+ "whitelist_" +:+ PyStr.lower region +:+ ".json".

(** ** Whitelists as Python dicts *)

Module Dict.

(** A dict [{uid: expiry}] in insertion order. *)
Definition t : Type := list (string * Z).

(** [d.items()] *)
Definition items (d : t) : list (string * Z) := d.

Definition keys (d : t) : list string := map fst d.

(** [d[k]] as an option ([None] is the [KeyError]). *)
Fixpoint get (k : string) (d : t) : option Z :=
  match d with
  | [] => None
  | (k', v) :: d' => if String.eqb k k' then Some v else get k d'
  end.

(** [k in d] *)
Definition mem (k : string) (d : t) : bool :=
  match get k d with Some _ => true | None => false end.

(** [d[k] = v]: an existing key keeps its position, a new key goes last. *)
Fixpoint set (k : string) (v : Z) (d : t) : t :=
  match d with
  | [] => [(k, v)]
  | (k', v') :: d' =>
      if String.eqb k k' then (k, v) :: d' else (k', v') :: set k v d'
  end.

(** [del d[k]] for a key that is present; the other entries keep their
    order. *)
Fixpoint del (k : string) (d : t) : t :=
  match d with
  | [] => []
  | (k', v') :: d' =>
      if String.eqb k k' then d' else (k', v') :: del k d'
  end.

(** [for k in ks: del d[k]] *)
Definition del_all (ks : list string) (d : t) : t :=
  fold_left (fun acc k => del k acc) ks d.

(** Keys of a dict are pairwise distinct. *)
Definition wf (d : t) : Prop := List.NoDup (keys d).

End Dict.

(** ** Accounts *)

Inductive HistoryEntry : Type :=
| whitelist_add (uid region : string) (hours cost timestamp : Z)
| coins_add (amount : Z) (reason : string) (timestamp : Z).

(** One value of [users.json]; each key may be missing. *)
Record UserData : Type := mkUser {
  coins : option Z;
  history : option (list HistoryEntry)
}.

(** ** The world the handlers run in *)

Inductive io_event : Type :=
| EvLoad (path : string)
| EvSave (path : string) (ok : bool).

Definition USERS_FILE : string := "users.json".

Record World : Type := mkWorld {
  wl_files : gmap string Dict.t;                (* whitelists/*.json, by path *)
  users_file : option (gmap string UserData);   (* users.json, if it exists *)
  clock : nat -> Z;                             (* successive clock readings *)
  ticks : nat;                                  (* readings taken so far *)
  disk_ok : nat -> bool;                        (* does the n-th write succeed *)
  writes : nat;                                 (* writes attempted so far *)
  io_log : list io_event                        (* file accesses, latest first *)
}.

Definition IO (A : Type) : Type := World -> A * World.

Definition ret {A} (a : A) : IO A := fun w => (a, w).

Definition bind {A B} (c : IO A) (k : A -> IO B) : IO B :=
  fun w => let (a, w') := c w in k a w'.

Notation "'let*' x ':=' c 'in' k" := (bind c (fun x => k))
  (at level 10, x name, c at level 100, k at level 200).

(** [int(time.time())] *)
Definition time_time : IO Z := fun w =>
  (clock w (ticks w),
   mkWorld (wl_files w) (users_file w) (clock w) (S (ticks w))
           (disk_ok w) (writes w) (io_log w)).

(** [load_whitelist(region)]: a missing file reads as the empty dict. *)
Definition load_whitelist (region : string) : IO Dict.t := fun w =>
  let path := get_whitelist_path region in
  (default [] (wl_files w !! path),
   mkWorld (wl_files w) (users_file w) (clock w) (ticks w)
           (disk_ok w) (writes w) (EvLoad path :: io_log w)).

(** [save_whitelist(region, whitelist_data)]: the file is replaced as a whole
    when the write succeeds and left as it was when it fails. *)
Definition save_whitelist (region : string) (d : Dict.t) : IO bool := fun w =>
  let path := get_whitelist_path region in
  let ok := disk_ok w (writes w) in
  (ok,
   mkWorld (if ok then <[path := d]> (wl_files w) else wl_files w)
           (users_file w) (clock w) (ticks w)
           (disk_ok w) (S (writes w)) (EvSave path ok :: io_log w)).

(** [load_users()] *)
Definition load_users : IO (gmap string UserData) := fun w =>
  (default ∅ (users_file w),
   mkWorld (wl_files w) (users_file w) (clock w) (ticks w)
           (disk_ok w) (writes w) (EvLoad USERS_FILE :: io_log w)).

(** [save_users(users_data)] *)
Definition save_users (users : gmap string UserData) : IO bool := fun w =>
  let ok := disk_ok w (writes w) in
  (ok,
   mkWorld (wl_files w) (if ok then Some users else users_file w)
           (clock w) (ticks w)
           (disk_ok w) (S (writes w)) (EvSave USERS_FILE ok :: io_log w)).

(** ** Requests and responses *)

(** JSON body of [POST /api/whitelist/add] and the [X-User-ID] header. *)
Record AddRequest : Type := mkAdd {
  add_uid : option string;
  add_region : option string;
  add_hours : option Z;
  add_user : option string
}.

(** JSON body of [POST /api/whitelist/remove]. *)
Record RemoveRequest : Type := mkRemove {
  rm_uid : option string;
  rm_region : option string
}.

(** JSON body of [POST /api/whitelist/check]. *)
Record CheckRequest : Type := mkCheck {
  chk_uid : option string;
  chk_region : option string
}.

(** The [error] strings of the failure responses. *)
Inductive Error : Type :=
| InvalidUidFormat
| InvalidRegion
| HoursOutOfRange
| InsufficientCoins (need have : Z)
| FailedToSaveWhitelist
| UidRequired
| UidNotFound (uid region : string).

Inductive Status : Type := active | expired.

(** One element of the [entries] array of the list endpoints. *)
Record Entry : Type := mkEntry {
  e_uid : string;
  e_region : string;
  e_expiry : Z;
  e_status : Status;
  e_time_remaining : Z
}.

Inductive Response : Type :=
| Failure (http : Z) (e : Error)
| AddOk (uid region : string) (expiry : Z) (status : Status)
        (time_remaining coins_remaining : Z)
| RemoveOk (uid region : string)
| Entries (l : list Entry)
| Whitelisted (region : string) (expiry time_remaining : Z)
| NotWhitelisted
| InternalServerError.

(** [request.headers.get("X-User-ID", "default_user")] *)
Definition get_user_id (hdr : option string) : string :=
  default "default_user" hdr.

(** ** Handlers *)

(** [clean_expired_entries(region)] *)
Definition clean_expired_entries (region : string) : IO Z :=
  let* whitelist := load_whitelist region in
  let* now := time_time in
  let expired_uids :=
    map fst (List.filter (fun '(_, expiry) => expiry <=? now)
                         (Dict.items whitelist)) in
  let whitelist := Dict.del_all expired_uids whitelist in
  let* _ := (match expired_uids with
             | [] => ret true                       (* nothing to save *)
             | _ :: _ => save_whitelist region whitelist
             end) in
  ret (Z.of_nat (length expired_uids)).

(** [add_to_whitelist()], [POST /api/whitelist/add] *)
Definition add_to_whitelist (req : AddRequest) : IO Response :=
  let uid := PyStr.strip (default EmptyString (add_uid req)) in
  let region := PyStr.upper (default EmptyString (add_region req)) in
  let hours := default DEFAULT_WHITELIST_HOURS (add_hours req) in
  if PyStr.is_empty uid || negb (PyStr.isdigit uid) then
    ret (Failure 400 InvalidUidFormat)
  else if negb (bool_decide (region ∈ ALL_REGIONS)) then
    ret (Failure 400 InvalidRegion)
  else if (hours <? 1) || (hours >? 720) then
    ret (Failure 400 HoursOutOfRange)
  else
    let user_id := get_user_id (add_user req) in
    let* users := load_users in
    let user_data := default (mkUser (Some 0) (Some [])) (users !! user_id) in
    if default 0 (coins user_data) <? COIN_COST_PER_UID then
      ret (Failure 400 (InsufficientCoins COIN_COST_PER_UID
                                          (default 0 (coins user_data))))
    else
      let* whitelist := load_whitelist region in
      let* now := time_time in
      let expiry := now + hours * 3600 in
      let whitelist := Dict.set uid expiry whitelist in
      let* saved := save_whitelist region whitelist in
      if negb saved then
        ret (Failure 500 FailedToSaveWhitelist)
      else
        match coins user_data with
        | None => ret InternalServerError   (* KeyError on user_data["coins"] *)
        | Some c =>
            let* ts := time_time in
            let user_data :=
              mkUser (Some (c - COIN_COST_PER_UID))
                     (Some ((default [] (history user_data)
                             ++ [whitelist_add uid region hours
                                               COIN_COST_PER_UID ts])%list)) in
            let* _ := save_users (<[user_id := user_data]> users) in
            ret (AddOk uid region expiry active (hours * 3600)
                       (c - COIN_COST_PER_UID))
        end.

(** [remove_from_whitelist()], [POST /api/whitelist/remove] *)
Definition remove_from_whitelist (req : RemoveRequest) : IO Response :=
  let uid := PyStr.strip (default EmptyString (rm_uid req)) in
  let region := PyStr.upper (default EmptyString (rm_region req)) in
  if PyStr.is_empty uid then
    ret (Failure 400 UidRequired)
  else if negb (bool_decide (region ∈ ALL_REGIONS)) then
    ret (Failure 400 InvalidRegion)
  else
    let* whitelist := load_whitelist region in
    if negb (Dict.mem uid whitelist) then
      ret (Failure 404 (UidNotFound uid region))
    else
      let whitelist := Dict.del uid whitelist in
      let* saved := save_whitelist region whitelist in
      if negb saved then
        ret (Failure 500 FailedToSaveWhitelist)
      else
        ret (RemoveOk uid region).

(** The dictionary built for one whitelist item by the list endpoints. *)
Definition entry_view (region : string) (now : Z) (item : string * Z) : Entry :=
  let '(uid, expiry) := item in
  mkEntry uid region expiry
          (if expiry >? now then active else expired)
          (Z.max 0 (expiry - now)).

(** [entries.sort(key=lambda x: x["expiry"])]: Python's sort is stable, so
    the result is the stable ascending arrangement, built here by insertion
    from the right. *)
Fixpoint insert_by_expiry (e : Entry) (l : list Entry) : list Entry :=
  match l with
  | [] => [e]
  | x :: l' =>
      if e_expiry e <=? e_expiry x then e :: l
      else x :: insert_by_expiry e l'
  end.

Definition sort_by_expiry (l : list Entry) : list Entry :=
  fold_right insert_by_expiry [] l.

(** [list_whitelist_by_region(region)], [GET /api/whitelist/list/<region>] *)
Definition list_whitelist_by_region (region : string) : IO Response :=
  let region := PyStr.upper region in
  if negb (bool_decide (region ∈ ALL_REGIONS)) then
    ret (Failure 400 InvalidRegion)
  else
    let* whitelist := load_whitelist region in
    let* now := time_time in
    let entries := map (entry_view region now) (Dict.items whitelist) in
    ret (Entries (sort_by_expiry entries)).

(** The loop of [list_whitelist] over the registry. *)
Fixpoint collect_entries (now : Z) (regions : list string) : IO (list Entry) :=
  match regions with
  | [] => ret []
  | region :: rest =>
      let* whitelist := load_whitelist region in
      let* more := collect_entries now rest in
      ret (map (entry_view region now) (Dict.items whitelist) ++ more)%list
  end.

(** [list_whitelist()], [GET /api/whitelist/list] *)
Definition list_whitelist : IO Response :=
  let* now := time_time in
  let* all_entries := collect_entries now ALL_REGIONS in
  ret (Entries (sort_by_expiry all_entries)).

(** The loop of [check_whitelist] over the registry, left by the first
    [return]. *)
Fixpoint check_all_regions (uid : string) (now : Z) (regions : list string)
  : IO Response :=
  match regions with
  | [] => ret NotWhitelisted
  | reg :: rest =>
      let* whitelist := load_whitelist reg in
      match Dict.get uid whitelist with
      | Some expiry =>
          if expiry >? now then ret (Whitelisted reg expiry (expiry - now))
          else check_all_regions uid now rest
      | None => check_all_regions uid now rest
      end
  end.

(** [check_whitelist()], [POST /api/whitelist/check] *)
Definition check_whitelist (req : CheckRequest) : IO Response :=
  let uid := PyStr.strip (default EmptyString (chk_uid req)) in
  let region := chk_region req in
  if PyStr.is_empty uid then
    ret (Failure 400 UidRequired)
  else
    let* now := time_time in
    match region with
    | Some r =>
        if negb (PyStr.is_empty r) then
          let region := PyStr.upper r in
          if negb (bool_decide (region ∈ ALL_REGIONS)) then
            ret (Failure 400 InvalidRegion)
          else
            let* whitelist := load_whitelist region in
            match Dict.get uid whitelist with
            | Some expiry =>
                if expiry >? now then
                  ret (Whitelisted region expiry (expiry - now))
                else ret NotWhitelisted
            | None => ret NotWhitelisted
            end
        else check_all_regions uid now ALL_REGIONS
    | None => check_all_regions uid now ALL_REGIONS
    end.

(** [cleanup_expired()], [POST /api/cleanup]: the total over the registry. *)
Fixpoint cleanup_regions (regions : list string) : IO Z :=
  match regions with
  | [] => ret 0
  | region :: rest =>
      let* removed := clean_expired_entries region in
      let* total := cleanup_regions rest in
      ret (removed + total)
  end.

Definition cleanup_expired : IO Z := cleanup_regions ALL_REGIONS.

(** ** Coin, statistics and registry endpoints; start-up *)

(** [get_regions()], [GET /api/regions]: the [(code, name)] pairs served. *)
Definition get_regions : list (string * string) :=
  [("BD", "Bangladesh"); ("IND", "India"); ("PK", "Pakistan");
   ("ID", "Indonesia"); ("VN", "Vietnam"); ("TH", "Thailand");
   ("ME", "Middle East"); ("EU", "Europe"); ("NA", "North America");
   ("BR", "Brazil"); ("TW", "Taiwan"); ("CIS", "CIS/Russia");
   ("SAC", "South America")].

(** JSON body of [POST /api/coins/add] and the [X-User-ID] header. *)
Record CoinsRequest : Type := mkCoins {
  coins_amount : option Z;
  coins_reason : option string;
  coins_user : option string
}.

Inductive CoinsResponse : Type :=
| InvalidAmount (http : Z)
| BalanceOk (user_id : string) (balance : Z)
| CoinsAddedOk (balance added : Z) (reason : string)
| HistoryOk (entries : list HistoryEntry).

(** [get_coin_balance()], [GET /api/coins/balance] *)
Definition get_coin_balance (hdr : option string) : IO CoinsResponse :=
  let user_id := get_user_id hdr in
  let* users := load_users in
  let user_data := default (mkUser (Some 0) None) (users !! user_id) in
  ret (BalanceOk user_id (default 0 (coins user_data))).

(** [add_coins()], [POST /api/coins/add] *)
Definition add_coins (req : CoinsRequest) : IO CoinsResponse :=
  let amount := default 0 (coins_amount req) in
  let reason := default "ad_view" (coins_reason req) in
  if (amount <=? 0) || (amount >? 1000) then
    ret (InvalidAmount 400)
  else
    let user_id := get_user_id (coins_user req) in
    let* users := load_users in
    let user_data := default (mkUser (Some 0) (Some [])) (users !! user_id) in
    let new_coins := default 0 (coins user_data) + amount in
    let* ts := time_time in
    let user_data :=
      mkUser (Some new_coins)
             (Some ((default [] (history user_data)
                     ++ [coins_add amount reason ts])%list)) in
    let* _ := save_users (<[user_id := user_data]> users) in
    ret (CoinsAddedOk new_coins amount reason).

(** [get_coin_history()], [GET /api/coins/history] *)
Definition get_coin_history (hdr : option string) : IO CoinsResponse :=
  let user_id := get_user_id hdr in
  let* users := load_users in
  let user_data := default (mkUser (Some 0) (Some [])) (users !! user_id) in
  ret (HistoryOk (default [] (history user_data))).

(** The [stats] object of [GET /api/stats]. *)
Record Stats : Type := mkStats {
  total_whitelisted : Z;
  active_whitelisted : Z;
  expired_whitelisted : Z;
  total_users : Z;
  total_coins : Z
}.

(** [sum(1 for expiry in whitelist.values() if expiry > now)] *)
Definition count_active (now : Z) (whitelist : Dict.t) : Z :=
  Z.of_nat (length (List.filter (fun expiry => expiry >? now)
                                (map snd whitelist))).

(** The loop of [get_stats] over the registry, with its two counters. *)
Fixpoint stats_loop (now : Z) (regions : list string) (total act : Z)
  : IO (Z * Z) :=
  match regions with
  | [] => ret (total, act)
  | region :: rest =>
      let* whitelist := load_whitelist region in
      stats_loop now rest
                 (total + Z.of_nat (length whitelist))
                 (act + count_active now whitelist)
  end.

(** [get_stats()], [GET /api/stats] *)
Definition get_stats : IO Stats :=
  let* now := time_time in
  let* counts := stats_loop now ALL_REGIONS 0 0 in
  let total := fst counts in
  let act := snd counts in
  let* users := load_users in
  ret (mkStats total act (total - act)
               (Z.of_nat (size users))
               (map_fold (fun _ user acc => acc + default 0 (coins user))
                         0 users)).

(** [os.path.exists(path)] for a whitelist file and for [users.json]. *)
Definition whitelist_exists (region : string) : IO bool := fun w =>
  (bool_decide (is_Some (wl_files w !! get_whitelist_path region)), w).

Definition users_exists : IO bool := fun w =>
  (bool_decide (is_Some (users_file w)), w).

(** The start-up loop: an empty whitelist for every region without a file. *)
Fixpoint bootstrap_regions (regions : list string) : IO unit :=
  match regions with
  | [] => ret tt
  | region :: rest =>
      let* present := whitelist_exists region in
      let* _ := (if negb present then save_whitelist region []
                 else ret true) in
      bootstrap_regions rest
  end.

(** The file creation done under [if __name__ == "__main__"] before the
    server is started. *)
Definition bootstrap : IO unit :=
  let* _ := bootstrap_regions ALL_REGIONS in
  let* present := users_exists in
  let* _ := (if negb present then save_users ∅ else ret true) in
  ret tt.

(** ** Observations on a world *)

(** The entries of [d] stored under the key [k]. *)
Definition entries_for (k : string) (d : Dict.t) : list (string * Z) :=
  List.filter (fun kv => String.eqb (fst kv) k) d.

(** The whitelist of a region as [load_whitelist] reads it. *)
Definition partition (w : World) (region : string) : Dict.t :=
  default [] (wl_files w !! get_whitelist_path region).

(** The record of a user as the handlers read it:
    [load_users().get(user_id, {"coins": 0, "history": []})]. *)
Definition account (w : World) (user_id : string) : UserData :=
  default (mkUser (Some 0) (Some [])) (default ∅ (users_file w) !! user_id).

(** [user_data.get("coins", 0)] and [user_data.get("history", [])], the
    values [get_coin_balance] and [get_coin_history] report. *)
Definition stored_balance (w : World) (user_id : string) : Z :=
  default 0 (coins (account w user_id)).
Definition stored_history (w : World) (user_id : string) : list HistoryEntry :=
  default [] (history (account w user_id)).

(** The filter of [clean_expired_entries] and its complement. *)
Definition is_expired (now : Z) (item : string * Z) : bool :=
  let '(_, expiry) := item in expiry <=? now.

Definition is_live (now : Z) (item : string * Z) : bool :=
  let '(_, expiry) := item in expiry >? now.

(** The order of the list endpoints: ascending expiry. *)
Definition by_expiry (a b : Entry) : Prop := e_expiry a <= e_expiry b.

(** What a listed entry shows of the stored item. *)
Definition stored_item (e : Entry) : string * Z := (e_uid e, e_expiry e).

(** The uid has an entry in the region that is still running at [now]. *)
Definition active_in (w : World) (now : Z) (uid region : string)
           (expiry : Z) : Prop :=
  Dict.get uid (partition w region) = Some expiry /\ expiry > now.


(** No file differs between the two worlds and no write was attempted. *)
Definition same_files (w w' : World) : Prop :=
  wl_files w' = wl_files w /\ users_file w' = users_file w
  /\ writes w' = writes w.


(** Every whitelist file holds a dict: no key occurs twice. *)
Definition files_wf (w : World) : Prop :=
  forall path d, wl_files w !! path = Some d -> Dict.wf d.

(** The local variables [uid], [region], [hours] and [user_id] of
    [add_to_whitelist], as computed from the request. *)
Definition uid_of (req : AddRequest) : string :=
  PyStr.strip (default EmptyString (add_uid req)).
Definition region_of (req : AddRequest) : string :=
  PyStr.upper (default EmptyString (add_region req)).
Definition hours_of (req : AddRequest) : Z :=
  default DEFAULT_WHITELIST_HOURS (add_hours req).
Definition user_of (req : AddRequest) : string :=
  get_user_id (add_user req).

(** The three validation checks of [add_to_whitelist] all pass. *)
Definition valid_add (req : AddRequest) : Prop :=
  PyStr.isdigit (uid_of req) = true
  /\ region_of req ∈ ALL_REGIONS
  /\ 1 <= hours_of req <= 720.

(** The two disk writes of one paid add, starting at write number [n]. *)
Definition writes_ok (w : World) (n : nat) : Prop :=
  disk_ok w n = true /\ disk_ok w (S n) = true.

(** The world after the two loads, two clock readings and two writes of a
    paid add whose whitelist write succeeded. *)
Definition world_after_add (req : AddRequest) (w : World) : World :=
  let expiry := clock w (ticks w) + hours_of req * 3600 in
  let path := get_whitelist_path (region_of req) in
  let charged := disk_ok w (S (writes w)) in
  let user_data :=
    mkUser (Some (stored_balance w (user_of req) - COIN_COST_PER_UID))
           (Some (stored_history w (user_of req)
                  ++ [whitelist_add (uid_of req) (region_of req) (hours_of req)
                        COIN_COST_PER_UID (clock w (S (ticks w)))])%list) in
  mkWorld
    (<[path := Dict.set (uid_of req) expiry (partition w (region_of req))]>
       (wl_files w))
    (if charged
     then Some (<[user_of req := user_data]> (default ∅ (users_file w)))
     else users_file w)
    (clock w) (S (S (ticks w))) (disk_ok w) (S (S (writes w)))
    (EvSave USERS_FILE charged :: EvSave path true :: EvLoad path
       :: EvLoad USERS_FILE :: io_log w).

(** What every listed entry says about itself at time [now]. *)
Definition well_labelled (region : string) (now : Z) (e : Entry) : Prop :=
  e_region e = region
  /\ (e_status e = active <-> e_expiry e > now)
  /\ (e_status e = expired <-> e_expiry e <= now)
  /\ e_time_remaining e = Z.max 0 (e_expiry e - now).

(** ** Sample worlds *)

Definition always_ok : nat -> bool := fun _ => true.
(** Only the write number [n] fails. *)
Definition fails_at (n : nat) : nat -> bool := fun k => negb (Nat.eqb k n).
(** A clock stuck at [t]. *)
Definition frozen (t : Z) : nat -> Z := fun _ => t.

Definition rich_user : gmap string UserData :=
  {[ "alice" := mkUser (Some 100) (Some [coins_add 100 "ad_view" 900]) ]}.
Definition poor_user : gmap string UserData :=
  {[ "alice" := mkUser (Some 50) (Some []) ]}.

Definition two_coins : gmap string UserData :=
  {[ "alice" := mkUser (Some 200) None ]}.

Definition ind_path : string := get_whitelist_path "IND".
Definition me_path : string := get_whitelist_path "ME".

Definition sample_files : gmap string Dict.t :=
  {[ ind_path := [("111", 500); ("222", 2000); ("333", 1000); ("444", 1500)];
     me_path := [("222", 900); ("555", 3000)] ]}.

Definition world0 (ok : nat -> bool) (users : gmap string UserData) : World :=
  mkWorld sample_files (Some users) (frozen 1000) 0 ok 0 [].

Definition add_req (uid region : string) (hours : option Z) : AddRequest :=
  mkAdd (Some uid) (Some region) hours (Some "alice").

(** ** Further observations *)

(** The local variables [uid] and [region] of [remove_from_whitelist]. *)
Definition rm_uid_of (req : RemoveRequest) : string :=
  PyStr.strip (default EmptyString (rm_uid req)).
Definition rm_region_of (req : RemoveRequest) : string :=
  PyStr.upper (default EmptyString (rm_region req)).

(** The three validation checks of [add_to_whitelist], as the handler
    evaluates them. *)
Definition valid_addb (req : AddRequest) : bool :=
  negb (PyStr.is_empty (uid_of req) || negb (PyStr.isdigit (uid_of req)))
  && bool_decide (region_of req ∈ ALL_REGIONS)
  && negb ((hours_of req <? 1) || (hours_of req >? 720)).

(** The world after a load of [users.json]. *)
Definition world_users_read (w : World) : World :=
  mkWorld (wl_files w) (users_file w) (clock w) (ticks w)
          (disk_ok w) (writes w) (EvLoad USERS_FILE :: io_log w).

(** The world after an add whose whitelist write failed. *)
Definition world_add_unsaved (req : AddRequest) (w : World) : World :=
  let path := get_whitelist_path (region_of req) in
  mkWorld (wl_files w) (users_file w) (clock w) (S (ticks w))
          (disk_ok w) (S (writes w))
          (EvSave path false :: EvLoad path :: EvLoad USERS_FILE :: io_log w).

(** Every stored balance is non-negative. *)
Definition balances_nonneg (w : World) : Prop :=
  forall user, 0 <= stored_balance w user.

(** The local variables [amount], [reason] and [user_id] of [add_coins]. *)
Definition amount_of (req : CoinsRequest) : Z := default 0 (coins_amount req).
Definition reason_of (req : CoinsRequest) : string :=
  default "ad_view" (coins_reason req).
Definition payee_of (req : CoinsRequest) : string :=
  get_user_id (coins_user req).

(** The world after the load, clock reading and write of an accepted
    [add_coins]. *)
Definition world_after_credit (req : CoinsRequest) (w : World) : World :=
  let credited := disk_ok w (writes w) in
  let user_data :=
    mkUser (Some (stored_balance w (payee_of req) + amount_of req))
           (Some (stored_history w (payee_of req)
                  ++ [coins_add (amount_of req) (reason_of req)
                                (clock w (ticks w))])%list) in
  mkWorld (wl_files w)
          (if credited
           then Some (<[payee_of req := user_data]> (default ∅ (users_file w)))
           else users_file w)
          (clock w) (S (ticks w)) (disk_ok w) (S (writes w))
          (EvSave USERS_FILE credited :: EvLoad USERS_FILE :: io_log w).

Definition coins_req (amount : Z) : CoinsRequest :=
  mkCoins (Some amount) None (Some "alice").

(** The world after the load and the write of a remove that found its
    uid. *)
Definition world_after_remove (req : RemoveRequest) (w : World) : World :=
  let path := get_whitelist_path (rm_region_of req) in
  let saved := disk_ok w (writes w) in
  mkWorld
    (if saved
     then <[path := Dict.del (rm_uid_of req) (partition w (rm_region_of req))]>
            (wl_files w)
     else wl_files w)
    (users_file w) (clock w) (ticks w) (disk_ok w) (S (writes w))
    (EvSave path saved :: EvLoad path :: io_log w).

(** The local variable [uid] of [check_whitelist]. *)
Definition chk_uid_of (req : CheckRequest) : string :=
  PyStr.strip (default EmptyString (chk_uid req)).

Definition rm_req (uid region : string) : RemoveRequest :=
  mkRemove (Some uid) (Some region).

Definition chk_req (uid region : string) : CheckRequest :=
  mkCheck (Some uid) (Some region).

(** Sums over the registry of what is stored at the start of a request:
    all entries, those still running at [now], those over at [now]. *)
Definition registry_total (w : World) (regions : list string) : Z :=
  fold_right (fun r acc => Z.of_nat (length (partition w r)) + acc) 0 regions.

Definition registry_active (w : World) (now : Z) (regions : list string) : Z :=
  fold_right (fun r acc => count_active now (partition w r) + acc) 0 regions.

Definition registry_expired (w : World) (now : Z) (regions : list string) : Z :=
  fold_right
    (fun r acc =>
       Z.of_nat (length (List.filter (is_expired now) (partition w r))) + acc)
    0 regions.

(** Every disk write from now on succeeds. *)
Definition disk_healthy (w : World) : Prop :=
  forall n, (writes w <= n)%nat -> disk_ok w n = true.

(** [w'] has the files of [w], each with its content, and possibly new
    whitelist files that hold the empty dict; [users.json] is untouched. *)
Definition only_adds_empty (w w' : World) : Prop :=
  (forall path,
      wl_files w' !! path = wl_files w !! path
      \/ (wl_files w !! path = None
          /\ wl_files w' !! path = Some ([] : Dict.t)))
  /\ users_file w' = users_file w
  /\ disk_ok w' = disk_ok w
  /\ (writes w <= writes w')%nat.

(** A machine on which the server has never run. *)
Definition blank_world : World := mkWorld ∅ None (frozen 0) 0 always_ok 0 [].

(** The world after a sweep of one region: the load, the clock reading and,
    when something had expired, the write. *)
Definition world_after_sweep (region : string) (w : World) : World :=
  let now := clock w (ticks w) in
  let before := partition w region in
  let path := get_whitelist_path region in
  match List.filter (is_expired now) before with
  | [] =>
      mkWorld (wl_files w) (users_file w) (clock w) (S (ticks w))
              (disk_ok w) (writes w) (EvLoad path :: io_log w)
  | _ :: _ =>
      let saved := disk_ok w (writes w) in
      mkWorld (if saved
               then <[path := List.filter (is_live now) before]> (wl_files w)
               else wl_files w)
              (users_file w) (clock w) (S (ticks w))
              (disk_ok w) (S (writes w))
              (EvSave path saved :: EvLoad path :: io_log w)
  end.

(** Later clock readings are not earlier. *)
Definition clock_monotone (w : World) : Prop :=
  forall i j, (i <= j)%nat -> clock w i <= clock w j.


(** ** Proof automation for concrete worlds *)

Ltac in_registry := apply (bool_decide_unpack _); vm_compute; exact I.
Ltac check_valid :=
  repeat split; try reflexivity; try in_registry;
  try (vm_compute; discriminate).
Ltac check_wf :=
  vm_compute; repeat constructor; simpl; intuition discriminate.

(** ** Facts about dicts *)

Section DictFacts.

Implicit Types (d : Dict.t) (k : string) (v : Z).

Lemma get_None_keys k d : Dict.get k d = None <-> ~ In k (Dict.keys d).
Proof.
  induction d as [|[k' v'] d IH]; simpl; [tauto|].
  destruct (String.eqb_spec k k') as [->|Hne].
  - split; [discriminate | intros H; exfalso; apply H; now left].
  - rewrite IH. split; [intros H [E|I]; [congruence | tauto] | tauto].
Qed.

Lemma get_Some_In k v d : Dict.get k d = Some v -> In (k, v) d.
Proof.
  induction d as [|[k' v'] d IH]; simpl; [discriminate|].
  destruct (String.eqb_spec k k') as [->|Hne].
  - intros [= ->]. now left.
  - intros H. right. auto.
Qed.

Lemma wf_cons k v d :
  Dict.wf ((k, v) :: d) <-> ~ In k (Dict.keys d) /\ Dict.wf d.
Proof. unfold Dict.wf. simpl. apply List.NoDup_cons_iff. Qed.

Lemma In_keys k v d : In (k, v) d -> In k (Dict.keys d).
Proof. intros H. change k with (fst (k, v)). now apply in_map. Qed.

Lemma In_get_Some k v d : Dict.wf d -> In (k, v) d -> Dict.get k d = Some v.
Proof.
  induction d as [|[k' v'] d IH]; simpl; [tauto|].
  intros [Hk Hd]%wf_cons [E|I].
  - injection E as -> ->. now rewrite String.eqb_refl.
  - destruct (String.eqb_spec k k') as [->|Hne]; [|auto].
    exfalso. eauto using In_keys.
Qed.

Lemma get_set_eq k v d : Dict.get k (Dict.set k v d) = Some v.
Proof.
  induction d as [|[k' v'] d IH]; simpl.
  - now rewrite String.eqb_refl.
  - destruct (String.eqb_spec k k') as [->|Hne]; simpl.
    + now rewrite String.eqb_refl.
    + destruct (String.eqb_spec k k'); [congruence | exact IH].
Qed.

Lemma get_set_ne k k' v d :
  k' <> k -> Dict.get k' (Dict.set k v d) = Dict.get k' d.
Proof.
  intros Hne. induction d as [|[k0 v0] d IH]; simpl.
  - destruct (String.eqb_spec k' k); [congruence | reflexivity].
  - destruct (String.eqb_spec k k0) as [->|Hk]; simpl.
    + destruct (String.eqb_spec k' k0); [congruence | reflexivity].
    + now rewrite IH.
Qed.

Lemma entries_for_absent k d : ~ In k (Dict.keys d) -> entries_for k d = [].
Proof.
  induction d as [|[k' v'] d IH]; simpl; [reflexivity|].
  intros H. destruct (String.eqb_spec k' k) as [->|Hne]; [tauto|].
  apply IH. tauto.
Qed.

(** After [d[k] = v] exactly one entry is stored under [k], and it holds
    [v]. *)
Lemma entries_for_set k v d :
  Dict.wf d -> entries_for k (Dict.set k v d) = [(k, v)].
Proof.
  induction d as [|[k' v'] d IH]; simpl.
  - intros _. now rewrite String.eqb_refl.
  - intros [Hk Hd]%wf_cons.
    destruct (String.eqb_spec k k') as [->|Hne]; simpl.
    + rewrite String.eqb_refl. f_equal. now apply entries_for_absent.
    + destruct (String.eqb_spec k' k); [congruence | auto].
Qed.

Lemma keys_set k v d :
  Dict.keys (Dict.set k v d) =
  if Dict.mem k d then Dict.keys d else (Dict.keys d ++ [k])%list.
Proof.
  unfold Dict.mem. induction d as [|[k' v'] d IH]; simpl; [reflexivity|].
  destruct (String.eqb_spec k k') as [->|Hne]; simpl; [reflexivity|].
  rewrite IH. now destruct (Dict.get k d).
Qed.

(** Assignment keeps the keys of a dict distinct. *)
Lemma set_wf k v d : Dict.wf d -> Dict.wf (Dict.set k v d).
Proof.
  induction d as [|[k' v'] d IH]; simpl.
  - intros _. apply wf_cons. split; [tauto | constructor].
  - intros [Hk Hd]%wf_cons.
    destruct (String.eqb_spec k k') as [->|Hne]; apply wf_cons; [tauto|].
    split; [|auto]. rewrite keys_set. unfold Dict.mem.
    destruct (Dict.get k d); [exact Hk|].
    rewrite in_app_iff. simpl. intuition congruence.
Qed.

(** On a dict, [del d[k]] removes every entry stored under [k]. *)
Lemma del_filter k d :
  Dict.wf d ->
  Dict.del k d = List.filter (fun kv => negb (String.eqb (fst kv) k)) d.
Proof.
  induction d as [|[k' v'] d IH]; simpl; [reflexivity|].
  intros [Hk Hd]%wf_cons. rewrite (String.eqb_sym k k').
  destruct (String.eqb_spec k' k) as [->|Hne]; simpl.
  - symmetry. apply forallb_filter_id. apply forallb_forall.
    intros [k0 v0] Hin. simpl.
    destruct (String.eqb_spec k0 k) as [->|]; [|reflexivity].
    exfalso. eauto using In_keys.
  - f_equal. auto.
Qed.

Lemma filter_wf (p : string * Z -> bool) d :
  Dict.wf d -> Dict.wf (List.filter p d).
Proof.
  induction d as [|[k' v'] d IH]; simpl; [auto|].
  intros [Hk Hd]%wf_cons. destruct (p (k', v')); [|auto].
  apply wf_cons. split; [|auto].
  intros Hin. apply Hk. unfold Dict.keys in *.
  apply in_map_iff in Hin as [[k0 v0] [E Hin]]. simpl in E. subst k0.
  apply filter_In in Hin as [Hin _]. eauto using In_keys.
Qed.

Lemma filter_twice {A} (p q : A -> bool) (l : list A) :
  List.filter p (List.filter q l) = List.filter (fun x => q x && p x) l.
Proof.
  induction l as [|x l IH]; simpl; [reflexivity|].
  destruct (q x); simpl; [destruct (p x)|]; now rewrite IH.
Qed.

Lemma del_all_filter ks d :
  Dict.wf d ->
  Dict.del_all ks d =
  List.filter (fun kv => negb (existsb (String.eqb (fst kv)) ks)) d.
Proof.
  unfold Dict.del_all. revert d.
  induction ks as [|k ks IH]; simpl; intros d Hd.
  - symmetry. apply forallb_filter_id. now apply forallb_forall.
  - rewrite (del_filter k d Hd).
    rewrite IH by now apply filter_wf.
    rewrite filter_twice. apply List.filter_ext. intros [k0 v0]. simpl.
    now rewrite negb_orb.
Qed.

(** Deleting the keys selected by [p] leaves the entries that fail [p],
    in their order. *)
Lemma del_all_selected (p : string * Z -> bool) d :
  Dict.wf d ->
  Dict.del_all (map fst (List.filter p d)) d
  = List.filter (fun kv => negb (p kv)) d.
Proof.
  intros Hd. rewrite del_all_filter by exact Hd.
  apply List.filter_ext_in. intros [k v] Hin. f_equal. simpl.
  destruct (p (k, v)) eqn:Hp.
  - apply existsb_exists. exists k. split; [|apply String.eqb_refl].
    change k with (fst (k, v)). apply in_map. apply filter_In. auto.
  - apply not_true_is_false. intros [k' [Hin' E]]%existsb_exists.
    apply String.eqb_eq in E. subst k'.
    apply in_map_iff in Hin' as [[k1 v1] [E Hin']]. simpl in E. subst k1.
    apply filter_In in Hin' as [Hin' Hp'].
    assert (v1 = v) as ->; [|congruence].
    apply (In_get_Some _ _ _ Hd) in Hin, Hin'. congruence.
Qed.

End DictFacts.

(** ** Running the handlers *)

Lemma isdigit_nonempty s : PyStr.isdigit s = true -> PyStr.is_empty s = false.
Proof. now destruct s. Qed.

Lemma stored_balance_coins w user :
  COIN_COST_PER_UID <= stored_balance w user ->
  coins (account w user) = Some (stored_balance w user).
Proof.
  unfold stored_balance, COIN_COST_PER_UID.
  destruct (coins (account w user)); simpl; [reflexivity | lia].
Qed.

Lemma add_run_saved req w :
  valid_add req ->
  COIN_COST_PER_UID <= stored_balance w (user_of req) ->
  disk_ok w (writes w) = true ->
  add_to_whitelist req w =
  (AddOk (uid_of req) (region_of req)
         (clock w (ticks w) + hours_of req * 3600) active
         (hours_of req * 3600)
         (stored_balance w (user_of req) - COIN_COST_PER_UID),
   world_after_add req w).
Proof.
  intros (Huid & Hreg & Hlo & Hhi) Hbal Hok.
  pose proof (stored_balance_coins _ _ Hbal) as Hc.
  unfold add_to_whitelist.
  fold (uid_of req) (region_of req) (hours_of req) (user_of req).
  rewrite (isdigit_nonempty _ Huid), Huid. simpl.
  rewrite (bool_decide_eq_true_2 _ Hreg). simpl.
  replace (hours_of req <? 1) with false by (symmetry; apply Z.ltb_ge; lia).
  replace (hours_of req >? 720) with false
    by (symmetry; rewrite Z.gtb_ltb; apply Z.ltb_ge; lia).
  simpl. unfold bind, load_users, load_whitelist, time_time, save_whitelist,
    save_users, ret. simpl.
  fold (account w (user_of req)). fold (stored_balance w (user_of req)).
  replace (stored_balance w (user_of req) <? COIN_COST_PER_UID) with false
    by (symmetry; apply Z.ltb_ge; lia).
  simpl. rewrite Hok. simpl. rewrite Hc. reflexivity.
Qed.

Lemma partition_after_add req w :
  partition (world_after_add req w) (region_of req)
  = Dict.set (uid_of req) (clock w (ticks w) + hours_of req * 3600)
             (partition w (region_of req)).
Proof. unfold partition. simpl. now rewrite lookup_insert_eq. Qed.

Lemma account_after_charge req w :
  disk_ok w (S (writes w)) = true ->
  account (world_after_add req w) (user_of req)
  = mkUser (Some (stored_balance w (user_of req) - COIN_COST_PER_UID))
           (Some (stored_history w (user_of req)
                  ++ [whitelist_add (uid_of req) (region_of req) (hours_of req)
                        COIN_COST_PER_UID (clock w (S (ticks w)))])%list).
Proof.
  intros Hok. unfold account at 1. simpl. rewrite Hok. simpl.
  now rewrite lookup_insert_eq.
Qed.

(** ** Validation of the add request *)



(** ** The paid add *)

(** C2. With valid inputs and a balance strictly below the cost, the add
    answers "Insufficient coins" and leaves every file as it was: no
    whitelist, balance or history changes, and no write is attempted. *)
Theorem add_insufficient_funds (req : AddRequest) (w : World) :
  valid_add req ->
  stored_balance w (user_of req) < COIN_COST_PER_UID ->
  exists w',
    add_to_whitelist req w
    = (Failure 400 (InsufficientCoins COIN_COST_PER_UID
                                      (stored_balance w (user_of req))), w')
    /\ wl_files w' = wl_files w
    /\ users_file w' = users_file w
    /\ writes w' = writes w
    /\ partition w' (region_of req) = partition w (region_of req)
    /\ stored_balance w' (user_of req) = stored_balance w (user_of req)
    /\ stored_history w' (user_of req) = stored_history w (user_of req).
Proof.
  intros (Huid & Hreg & Hlo & Hhi) Hbal.
  unfold add_to_whitelist.
  fold (uid_of req) (region_of req) (hours_of req) (user_of req).
  rewrite (isdigit_nonempty _ Huid), Huid. simpl.
  rewrite (bool_decide_eq_true_2 _ Hreg). simpl.
  replace (hours_of req <? 1) with false by (symmetry; apply Z.ltb_ge; lia).
  replace (hours_of req >? 720) with false
    by (symmetry; rewrite Z.gtb_ltb; apply Z.ltb_ge; lia).
  simpl. unfold bind, load_users, ret. simpl.
  fold (account w (user_of req)). fold (stored_balance w (user_of req)).
  replace (stored_balance w (user_of req) <? COIN_COST_PER_UID) with true
    by (symmetry; apply Z.ltb_lt; lia).
  eexists. split; [reflexivity|]. repeat split.
Qed.

Lemma add_insufficient_funds_witness :
  fst (add_to_whitelist (add_req "12345" "IND" (Some 2))
                        (world0 always_ok poor_user))
  = Failure 400 (InsufficientCoins 100 50).
Proof.
  destruct (add_insufficient_funds
              (add_req "12345" "IND" (Some 2)) (world0 always_ok poor_user))
    as (w' & Hrun & _).
  - check_valid.
  - vm_compute. reflexivity.
  - rewrite Hrun. vm_compute. reflexivity.
Defined.

(** C3. A paid add with valid inputs, enough coins and both disk writes
    succeeding answers success; the balance goes down by exactly the cost,
    exactly one [whitelist_add] entry is appended to the caller's history,
    and the target whitelist holds exactly one entry for the uid, expiring
    at now + hours*3600; the answer reports it active with
    time_remaining = hours*3600. *)
Theorem add_success_effects (req : AddRequest) (w : World) :
  valid_add req ->
  COIN_COST_PER_UID <= stored_balance w (user_of req) ->
  writes_ok w (writes w) ->
  Dict.wf (partition w (region_of req)) ->
  let now := clock w (ticks w) in
  let expiry := now + hours_of req * 3600 in
  exists w' ts,
    add_to_whitelist req w
    = (AddOk (uid_of req) (region_of req) expiry active (hours_of req * 3600)
             (stored_balance w (user_of req) - COIN_COST_PER_UID), w')
    /\ stored_balance w' (user_of req)
       = stored_balance w (user_of req) - COIN_COST_PER_UID
    /\ stored_history w' (user_of req)
       = (stored_history w (user_of req)
          ++ [whitelist_add (uid_of req) (region_of req) (hours_of req)
                            COIN_COST_PER_UID ts])%list
    /\ entries_for (uid_of req) (partition w' (region_of req))
       = [(uid_of req, expiry)]
    /\ Dict.get (uid_of req) (partition w' (region_of req)) = Some expiry.
Proof.
  intros Hvalid Hbal [Hw1 Hw2] Hwf now expiry.
  exists (world_after_add req w), (clock w (S (ticks w))).
  split; [now apply add_run_saved|].
  unfold stored_balance at 1, stored_history at 1.
  rewrite (account_after_charge _ _ Hw2), partition_after_add. simpl.
  repeat split.
  - now apply entries_for_set.
  - apply get_set_eq.
Qed.

Lemma add_success_effects_witness :
  fst (add_to_whitelist (add_req "12345" "IND" (Some 2))
                        (world0 always_ok rich_user))
  = AddOk "12345" "IND" 8200 active 7200 0.
Proof.
  destruct (add_success_effects
              (add_req "12345" "IND" (Some 2)) (world0 always_ok rich_user))
    as (w' & ts & Hrun & _).
  - check_valid.
  - vm_compute. discriminate.
  - split; reflexivity.
  - check_wf.
  - rewrite Hrun. vm_compute. reflexivity.
Defined.

(** C1 (what the code does). When the whitelist write succeeds and the
    write of [users.json] fails, the add still answers plain success and
    reports the debited balance as [coins_remaining], although the stored
    balance and history are those from before the call and the uid is
    whitelisted: the result of [save_users] is not looked at. *)
Theorem add_hides_failed_debit (req : AddRequest) (w : World) :
  valid_add req ->
  COIN_COST_PER_UID <= stored_balance w (user_of req) ->
  disk_ok w (writes w) = true ->
  disk_ok w (S (writes w)) = false ->
  let expiry := clock w (ticks w) + hours_of req * 3600 in
  exists w',
    add_to_whitelist req w
    = (AddOk (uid_of req) (region_of req) expiry active (hours_of req * 3600)
             (stored_balance w (user_of req) - COIN_COST_PER_UID), w')
    /\ users_file w' = users_file w
    /\ stored_balance w' (user_of req) = stored_balance w (user_of req)
    /\ stored_history w' (user_of req) = stored_history w (user_of req)
    /\ Dict.get (uid_of req) (partition w' (region_of req)) = Some expiry.
Proof.
  intros Hvalid Hbal Hw1 Hw2 expiry.
  exists (world_after_add req w).
  split; [now apply add_run_saved|].
  assert (users_file (world_after_add req w) = users_file w) as Hu
    by (simpl; now rewrite Hw2).
  unfold stored_balance, stored_history, account. rewrite Hu.
  repeat split. rewrite partition_after_add. apply get_set_eq.
Qed.

Lemma add_hides_failed_debit_witness :
  let r := add_to_whitelist (add_req "12345" "IND" (Some 2))
                            (world0 (fails_at 1) rich_user) in
  fst r = AddOk "12345" "IND" 8200 active 7200 0
  /\ stored_balance (snd r) "alice" = 100.
Proof.
  destruct (add_hides_failed_debit
              (add_req "12345" "IND" (Some 2)) (world0 (fails_at 1) rich_user))
    as (w' & Hrun & _ & Hbal & _).
  - check_valid.
  - vm_compute. discriminate.
  - reflexivity.
  - reflexivity.
  - simpl. rewrite Hrun. split; [vm_compute; reflexivity|].
    simpl. etransitivity; [exact Hbal | vm_compute; reflexivity].
Defined.

(** C10. An add request without [hours] is handled exactly as the same
    request with [hours = 24] (so it passes the 1..720 check that an explicit
    value is put through), and when it goes through the stored expiry is
    now + 24*3600. *)
Theorem add_default_hours (req : AddRequest) (w : World) :
  add_hours req = None ->
  PyStr.isdigit (uid_of req) = true ->
  region_of req ∈ ALL_REGIONS ->
  COIN_COST_PER_UID <= stored_balance w (user_of req) ->
  disk_ok w (writes w) = true ->
  let now := clock w (ticks w) in
  add_to_whitelist req w
  = add_to_whitelist
      (mkAdd (add_uid req) (add_region req) (Some 24) (add_user req)) w
  /\ DEFAULT_WHITELIST_HOURS = 24
  /\ exists w',
      add_to_whitelist req w
      = (AddOk (uid_of req) (region_of req) (now + 24 * 3600) active
               (24 * 3600)
               (stored_balance w (user_of req) - COIN_COST_PER_UID), w')
      /\ Dict.get (uid_of req) (partition w' (region_of req))
         = Some (now + 24 * 3600).
Proof.
  intros Hnone Huid Hreg Hbal Hok now.
  assert (hours_of req = 24) as Hh by (unfold hours_of; now rewrite Hnone).
  split; [|split; [reflexivity|]].
  - unfold add_to_whitelist. simpl. now rewrite Hnone.
  - exists (world_after_add req w). rewrite <- Hh. split.
    + apply add_run_saved; try assumption.
      repeat split; try assumption; rewrite Hh; lia.
    + rewrite partition_after_add. apply get_set_eq.
Qed.

Lemma add_default_hours_witness :
  fst (add_to_whitelist (add_req "12345" "IND" None)
                        (world0 always_ok rich_user))
  = AddOk "12345" "IND" 87400 active 86400 0.
Proof.
  destruct (add_default_hours
              (add_req "12345" "IND" None) (world0 always_ok rich_user))
    as (_ & _ & w' & Hrun & _).
  - reflexivity.
  - reflexivity.
  - in_registry.
  - vm_compute. discriminate.
  - reflexivity.
  - rewrite Hrun. vm_compute. reflexivity.
Defined.

(** C4. Two successful adds of the same uid to the same region, whatever
    their hours, leave exactly one entry for that uid in the region's
    whitelist, carrying the expiry computed by the second call; the second
    call answers success like any other add. *)
Theorem readd_overwrites (req1 req2 : AddRequest) (w : World) :
  valid_add req1 ->
  valid_add req2 ->
  uid_of req2 = uid_of req1 ->
  region_of req2 = region_of req1 ->
  let w1 := snd (add_to_whitelist req1 w) in
  let w2 := snd (add_to_whitelist req2 w1) in
  COIN_COST_PER_UID <= stored_balance w (user_of req1) ->
  COIN_COST_PER_UID <= stored_balance w1 (user_of req2) ->
  disk_ok w (writes w) = true ->
  disk_ok w (S (S (writes w))) = true ->
  Dict.wf (partition w (region_of req1)) ->
  let latest := clock w (S (S (ticks w))) + hours_of req2 * 3600 in
  fst (add_to_whitelist req2 w1)
  = AddOk (uid_of req1) (region_of req1) latest active (hours_of req2 * 3600)
          (stored_balance w1 (user_of req2) - COIN_COST_PER_UID)
  /\ entries_for (uid_of req1) (partition w2 (region_of req1))
     = [(uid_of req1, latest)]
  /\ Dict.get (uid_of req1) (partition w2 (region_of req1)) = Some latest.
Proof.
  intros Hv1 Hv2 Huid Hreg w1 w2 Hb1 Hb2 Hw1 Hw2 Hwf latest.
  assert (w1 = world_after_add req1 w) as E1
    by (unfold w1; now rewrite add_run_saved).
  assert (add_to_whitelist req2 w1
          = (AddOk (uid_of req1) (region_of req1) latest active
                   (hours_of req2 * 3600)
                   (stored_balance w1 (user_of req2) - COIN_COST_PER_UID),
             world_after_add req2 w1)) as E2.
  { rewrite add_run_saved; try assumption.
    - rewrite Huid, Hreg. unfold latest. now rewrite E1.
    - now rewrite E1. }
  unfold w2. rewrite E2. simpl. split; [reflexivity|].
  rewrite <- Hreg, partition_after_add, Huid.
  replace (clock w1 (ticks w1) + hours_of req2 * 3600) with latest
    by (unfold latest; now rewrite E1).
  split; [|apply get_set_eq].
  apply entries_for_set. rewrite Hreg, E1, partition_after_add.
  now apply set_wf.
Qed.

Lemma readd_overwrites_witness :
  let w1 := snd (add_to_whitelist (add_req "222" "IND" (Some 1))
                                  (world0 always_ok two_coins)) in
  let w2 := snd (add_to_whitelist (add_req "222" "ind" (Some 5)) w1) in
  entries_for "222" (partition w2 "IND") = [("222", 19000)].
Proof.
  intros w1 w2.
  destruct (readd_overwrites
              (add_req "222" "IND" (Some 1)) (add_req "222" "ind" (Some 5))
              (world0 always_ok two_coins))
    as (_ & Hone & _).
  - check_valid.
  - check_valid.
  - reflexivity.
  - reflexivity.
  - vm_compute. discriminate.
  - vm_compute. discriminate.
  - reflexivity.
  - reflexivity.
  - check_wf.
  - exact Hone.
Defined.

(** ** Removal *)



(** ** Sweeping expired entries *)

Lemma gtb_negb_leb (a b : Z) : (a >? b) = negb (a <=? b).
Proof. rewrite Z.gtb_ltb. apply Z.ltb_antisym. Qed.

Lemma is_live_negb now item : is_live now item = negb (is_expired now item).
Proof. destruct item. apply gtb_negb_leb. Qed.



(** ** Listing *)

Lemma insert_by_expiry_perm e l : Permutation (insert_by_expiry e l) (e :: l).
Proof.
  induction l as [|x l IH]; simpl; [reflexivity|].
  destruct (e_expiry e <=? e_expiry x); [reflexivity|].
  rewrite IH. apply perm_swap.
Qed.

Lemma sort_by_expiry_perm l : Permutation (sort_by_expiry l) l.
Proof.
  induction l as [|x l IH]; simpl; [reflexivity|].
  rewrite insert_by_expiry_perm. now constructor.
Qed.

Lemma insert_by_expiry_sorted e l :
  StronglySorted by_expiry l -> StronglySorted by_expiry (insert_by_expiry e l).
Proof.
  induction 1 as [|x l Hs IH Hx]; simpl.
  - repeat constructor.
  - destruct (Z.leb_spec (e_expiry e) (e_expiry x)) as [Hle|Hgt].
    + constructor; [now constructor|].
      constructor; [exact Hle|].
      eapply List.Forall_impl; [|exact Hx].
      unfold by_expiry. intros; lia.
    + constructor; [exact IH|].
      eapply Permutation_Forall;
        [symmetry; apply insert_by_expiry_perm|].
      constructor; [unfold by_expiry; lia | exact Hx].
Qed.

Lemma sort_by_expiry_sorted l : StronglySorted by_expiry (sort_by_expiry l).
Proof.
  induction l as [|x l IH]; simpl; [constructor|].
  now apply insert_by_expiry_sorted.
Qed.

Lemma entry_view_labelled region now item :
  well_labelled region now (entry_view region now item)
  /\ stored_item (entry_view region now item) = item.
Proof.
  destruct item as [uid expiry]. unfold well_labelled. simpl.
  rewrite Z.gtb_ltb. destruct (Z.ltb_spec now expiry); repeat split;
    intros; try discriminate; lia.
Qed.



Lemma collect_entries_run now regions w :
  exists w',
    collect_entries now regions w
    = (flat_map (fun r => map (entry_view r now) (partition w r)) regions, w')
    /\ same_files w w'.
Proof.
  revert w. induction regions as [|r regions IH]; intros w; simpl.
  - exists w. repeat split.
  - unfold bind, load_whitelist at 1. simpl.
    match goal with
    | |- context [collect_entries now regions ?w1] =>
        destruct (IH w1) as (w' & -> & Hw & Hu & Hn)
    end.
    exists w'. split; [reflexivity|]. repeat split; assumption.
Qed.

(** The list over all regions has the same labels and the same order. *)
Lemma list_all_sorted (w : World) :
  let now := clock w (ticks w) in
  exists l w',
    list_whitelist w = (Entries l, w')
    /\ Permutation
         (map (fun e => (e_region e, stored_item e)) l)
         (flat_map (fun r => map (pair r) (partition w r)) ALL_REGIONS)
    /\ Forall (fun e => well_labelled (e_region e) now e) l
    /\ StronglySorted by_expiry l
    /\ same_files w w'.
Proof.
  intros now. unfold list_whitelist, bind, time_time. cbv beta iota zeta.
  match goal with
  | |- context [collect_entries ?n ALL_REGIONS ?w1] =>
      destruct (collect_entries_run n ALL_REGIONS w1) as (w' & -> & Hsame)
  end.
  fold now. unfold ret, partition. cbn [wl_files].
  change (fun r : string =>
            map (entry_view r now)
                (default [] (wl_files w !! get_whitelist_path r)))
    with (fun r : string => map (entry_view r now) (partition w r)).
  match goal with
  | |- context [sort_by_expiry ?vs] => set (views := vs)
  end.
  pose proof (sort_by_expiry_perm views) as Hperm.
  eexists. eexists. split; [reflexivity|]. split; [|split; [|split]].
  - etransitivity; [apply Permutation_map; exact Hperm|].
    unfold views. generalize ALL_REGIONS. intros regions.
    induction regions as [|r regions IH]; simpl; [reflexivity|].
    rewrite map_app, IH, map_map.
    apply Permutation_app_tail.
    erewrite map_ext; [reflexivity|].
    intros item. simpl.
    destruct (entry_view_labelled r now item) as ((-> & _) & ->).
    reflexivity.
  - eapply Permutation_Forall; [symmetry; exact Hperm|].
    apply List.Forall_forall. intros e Hin. unfold views in Hin.
    apply in_flat_map in Hin as (r & _ & [item [<- _]]%in_map_iff).
    destruct (entry_view_labelled r now item) as (Hl & _).
    rewrite (proj1 Hl). exact Hl.
  - apply sort_by_expiry_sorted.
  - exact Hsame.
Qed.

(** ** Checking *)

Lemma is_empty_false s : s <> EmptyString -> PyStr.is_empty s = false.
Proof. destruct s; [congruence | reflexivity]. Qed.



Lemma same_files_trans w1 w2 w3 :
  same_files w1 w2 -> same_files w2 w3 -> same_files w1 w3.
Proof. unfold same_files. intuition congruence. Qed.






(** ** The stored whitelists stay dicts *)

Lemma files_wf_partition w region : files_wf w -> Dict.wf (partition w region).
Proof.
  unfold files_wf, partition. intros H.
  destruct (wl_files w !! get_whitelist_path region) as [d|] eqn:E; simpl.
  - eauto.
  - constructor.
Qed.

Lemma files_wf_insert w path d (files : gmap string Dict.t) :
  files_wf w -> Dict.wf d -> files = <[path := d]> (wl_files w) ->
  forall p d', files !! p = Some d' -> Dict.wf d'.
Proof.
  intros Hw Hd -> p d'. rewrite lookup_insert. case_decide.
  - now intros [= <-].
  - apply Hw.
Qed.

Lemma del_wf k d : Dict.wf d -> Dict.wf (Dict.del k d).
Proof. intros H. rewrite del_filter by exact H. now apply filter_wf. Qed.

Lemma add_keeps_files_wf req w :
  files_wf w -> files_wf (snd (add_to_whitelist req w)).
Proof.
  intros Hw. unfold add_to_whitelist.
  destruct (_ || _); [exact Hw|].
  destruct (negb _); [exact Hw|].
  destruct (_ || _); [exact Hw|].
  unfold bind, load_users, load_whitelist, time_time, save_whitelist,
    save_users, ret. cbv beta iota zeta. cbn [wl_files users_file].
  destruct (_ <? _); [exact Hw|].
  cbn [wl_files disk_ok writes clock ticks].
  assert (forall p d',
            <[get_whitelist_path (region_of req) :=
                Dict.set (uid_of req)
                         (clock w (ticks w) + hours_of req * 3600)
                         (partition w (region_of req))]> (wl_files w) !! p
            = Some d' -> Dict.wf d') as Hins.
  { eapply files_wf_insert; [exact Hw | | reflexivity].
    apply set_wf. now apply files_wf_partition. }
  destruct (disk_ok w (writes w)); cbn [negb]; [|exact Hw].
  destruct (coins _); exact Hins.
Qed.

Lemma remove_keeps_files_wf req w :
  files_wf w -> files_wf (snd (remove_from_whitelist req w)).
Proof.
  intros Hw. unfold remove_from_whitelist.
  destruct (PyStr.is_empty _); [exact Hw|].
  destruct (negb _); [exact Hw|].
  unfold bind, load_whitelist, save_whitelist, ret.
  cbv beta iota zeta. cbn [wl_files disk_ok writes].
  destruct (negb (Dict.mem _ _)); [exact Hw|].
  cbv beta iota zeta. cbn [wl_files disk_ok writes].
  destruct (disk_ok w (writes w)); cbn [negb]; [|exact Hw].
  unfold files_wf. cbn [snd wl_files].
  eapply files_wf_insert; [exact Hw | | reflexivity].
  apply del_wf. apply (files_wf_partition w). exact Hw.
Qed.

Lemma sweep_keeps_files_wf region w :
  files_wf w -> files_wf (snd (clean_expired_entries region w)).
Proof.
  intros Hw. unfold clean_expired_entries, bind, load_whitelist, time_time,
    ret. cbv beta iota zeta. cbn [wl_files clock ticks].
  fold (partition w region).
  destruct (map fst _) as [|k ks] eqn:Hks; [exact Hw|].
  unfold save_whitelist. cbv beta iota zeta.
  cbn [wl_files disk_ok writes snd].
  destruct (disk_ok w (writes w)); [|exact Hw].
  unfold files_wf. cbn [snd wl_files].
  eapply files_wf_insert; [exact Hw | | reflexivity].
  rewrite <- Hks. unfold Dict.items.
  rewrite del_all_selected by now apply files_wf_partition.
  apply filter_wf. now apply files_wf_partition.
Qed.

(** ** Every path through the paid add *)

Lemma valid_addb_spec req : valid_addb req = true <-> valid_add req.
Proof.
  unfold valid_addb, valid_add.
  rewrite !andb_true_iff, !negb_true_iff, !orb_false_iff, negb_false_iff.
  rewrite bool_decide_eq_true, Z.ltb_ge, Z.gtb_ltb, Z.ltb_ge.
  split.
  - intros (((_ & Hd) & Hr) & Hlo & Hhi). auto.
  - intros (Hd & Hr & Hlo & Hhi). repeat split; auto.
    now apply isdigit_nonempty.
Qed.

Lemma add_run_invalid req w :
  valid_addb req = false ->
  exists e, add_to_whitelist req w = (Failure 400 e, w).
Proof.
  unfold valid_addb, add_to_whitelist.
  fold (uid_of req) (region_of req) (hours_of req).
  destruct (_ || _); [eauto|].
  destruct (bool_decide _); cbn [negb andb]; [|eauto].
  destruct (_ || _); [eauto | discriminate].
Qed.

Lemma add_run_poor req w :
  valid_add req ->
  stored_balance w (user_of req) < COIN_COST_PER_UID ->
  add_to_whitelist req w
  = (Failure 400 (InsufficientCoins COIN_COST_PER_UID
                                    (stored_balance w (user_of req))),
     world_users_read w).
Proof.
  intros (Huid & Hreg & Hlo & Hhi) Hbal.
  unfold add_to_whitelist.
  fold (uid_of req) (region_of req) (hours_of req) (user_of req).
  rewrite (isdigit_nonempty _ Huid), Huid. simpl.
  rewrite (bool_decide_eq_true_2 _ Hreg). simpl.
  replace (hours_of req <? 1) with false by (symmetry; apply Z.ltb_ge; lia).
  replace (hours_of req >? 720) with false
    by (symmetry; rewrite Z.gtb_ltb; apply Z.ltb_ge; lia).
  simpl. unfold bind, load_users, ret. simpl.
  fold (account w (user_of req)). fold (stored_balance w (user_of req)).
  replace (stored_balance w (user_of req) <? COIN_COST_PER_UID) with true
    by (symmetry; apply Z.ltb_lt; lia).
  reflexivity.
Qed.

Lemma add_run_unsaved req w :
  valid_add req ->
  COIN_COST_PER_UID <= stored_balance w (user_of req) ->
  disk_ok w (writes w) = false ->
  add_to_whitelist req w
  = (Failure 500 FailedToSaveWhitelist, world_add_unsaved req w).
Proof.
  intros (Huid & Hreg & Hlo & Hhi) Hbal Hok.
  unfold add_to_whitelist.
  fold (uid_of req) (region_of req) (hours_of req) (user_of req).
  rewrite (isdigit_nonempty _ Huid), Huid. simpl.
  rewrite (bool_decide_eq_true_2 _ Hreg). simpl.
  replace (hours_of req <? 1) with false by (symmetry; apply Z.ltb_ge; lia).
  replace (hours_of req >? 720) with false
    by (symmetry; rewrite Z.gtb_ltb; apply Z.ltb_ge; lia).
  simpl. unfold bind, load_users, load_whitelist, time_time, save_whitelist,
    ret. simpl.
  fold (account w (user_of req)). fold (stored_balance w (user_of req)).
  replace (stored_balance w (user_of req) <? COIN_COST_PER_UID) with false
    by (symmetry; apply Z.ltb_ge; lia).
  simpl. rewrite Hok. reflexivity.
Qed.

(** The four ways an add can end. *)
Lemma add_outcome req w :
  (exists e, add_to_whitelist req w = (Failure 400 e, w))
  \/ (exists have,
        add_to_whitelist req w
        = (Failure 400 (InsufficientCoins COIN_COST_PER_UID have),
           world_users_read w))
  \/ add_to_whitelist req w
     = (Failure 500 FailedToSaveWhitelist, world_add_unsaved req w)
  \/ (valid_add req
      /\ COIN_COST_PER_UID <= stored_balance w (user_of req)
      /\ disk_ok w (writes w) = true
      /\ add_to_whitelist req w
         = (AddOk (uid_of req) (region_of req)
                  (clock w (ticks w) + hours_of req * 3600) active
                  (hours_of req * 3600)
                  (stored_balance w (user_of req) - COIN_COST_PER_UID),
            world_after_add req w)).
Proof.
  destruct (valid_addb req) eqn:Hv.
  - apply valid_addb_spec in Hv.
    destruct (Z.lt_ge_cases (stored_balance w (user_of req)) COIN_COST_PER_UID)
      as [Hlt|Hge].
    + right. left. eexists. now apply add_run_poor.
    + destruct (disk_ok w (writes w)) eqn:Hok.
      * right. right. right.
        split; [exact Hv|]. split; [exact Hge|]. split; [reflexivity|].
        now apply add_run_saved.
      * right. right. left. now apply add_run_unsaved.
  - left. now apply add_run_invalid.
Qed.

(** X1. An add whose whitelist write fails answers 500 "Failed to save
    whitelist": no file is changed, the caller is not charged, and the write
    of [users.json] is not even attempted. *)
Theorem add_whitelist_save_failure (req : AddRequest) (w : World) :
  valid_add req ->
  COIN_COST_PER_UID <= stored_balance w (user_of req) ->
  disk_ok w (writes w) = false ->
  exists w',
    add_to_whitelist req w = (Failure 500 FailedToSaveWhitelist, w')
    /\ wl_files w' = wl_files w
    /\ users_file w' = users_file w
    /\ writes w' = S (writes w)
    /\ stored_balance w' (user_of req) = stored_balance w (user_of req).
Proof.
  intros Hv Hbal Hok. exists (world_add_unsaved req w).
  split; [now apply add_run_unsaved | repeat split].
Qed.

Lemma add_whitelist_save_failure_witness :
  let r := add_to_whitelist (add_req "12345" "IND" (Some 2))
                            (world0 (fun _ => false) rich_user) in
  fst r = Failure 500 FailedToSaveWhitelist
  /\ stored_balance (snd r) "alice" = 100.
Proof.
  destruct (add_whitelist_save_failure
              (add_req "12345" "IND" (Some 2))
              (world0 (fun _ => false) rich_user))
    as (w' & Hrun & _ & _ & _ & Hbal).
  - check_valid.
  - vm_compute. discriminate.
  - reflexivity.
  - simpl. rewrite Hrun. split; [reflexivity|].
    simpl. etransitivity; [exact Hbal | vm_compute; reflexivity].
Defined.




(** ** The coin ledger *)

Lemma add_coins_run_ok req w :
  0 < amount_of req <= 1000 ->
  add_coins req w
  = (CoinsAddedOk (stored_balance w (payee_of req) + amount_of req)
                  (amount_of req) (reason_of req),
     world_after_credit req w).
Proof.
  intros [Hlo Hhi]. unfold add_coins.
  fold (amount_of req) (reason_of req) (payee_of req).
  replace (amount_of req <=? 0) with false by (symmetry; apply Z.leb_gt; lia).
  replace (amount_of req >? 1000) with false
    by (symmetry; rewrite Z.gtb_ltb; apply Z.ltb_ge; lia).
  reflexivity.
Qed.

Lemma add_coins_run_bad req w :
  amount_of req <= 0 \/ 1000 < amount_of req ->
  add_coins req w = (InvalidAmount 400, w).
Proof.
  intros H. unfold add_coins. fold (amount_of req).
  destruct (Z.leb_spec (amount_of req) 0); [reflexivity|].
  rewrite Z.gtb_ltb.
  destruct (Z.ltb_spec 1000 (amount_of req)); [reflexivity | lia].
Qed.

Lemma account_after_credit req w :
  disk_ok w (writes w) = true ->
  account (world_after_credit req w) (payee_of req)
  = mkUser (Some (stored_balance w (payee_of req) + amount_of req))
           (Some (stored_history w (payee_of req)
                  ++ [coins_add (amount_of req) (reason_of req)
                                (clock w (ticks w))])%list).
Proof.
  intros Hok. unfold account at 1. simpl. rewrite Hok. simpl.
  now rewrite lookup_insert_eq.
Qed.

(** X4. A credit of an amount within 1..1000 whose write succeeds raises the
    caller's balance by exactly that amount, appends one [coins_add] entry
    (with the reason, "ad_view" when none is given) to the caller's history,
    answers with the new balance, and leaves every whitelist file and every
    other account as it was. *)
Theorem add_coins_credits (req : CoinsRequest) (w : World) :
  0 < amount_of req <= 1000 ->
  disk_ok w (writes w) = true ->
  exists w',
    add_coins req w
    = (CoinsAddedOk (stored_balance w (payee_of req) + amount_of req)
                    (amount_of req) (reason_of req), w')
    /\ stored_balance w' (payee_of req)
       = stored_balance w (payee_of req) + amount_of req
    /\ stored_history w' (payee_of req)
       = (stored_history w (payee_of req)
          ++ [coins_add (amount_of req) (reason_of req) (clock w (ticks w))])%list
    /\ wl_files w' = wl_files w
    /\ (forall user, user <> payee_of req -> account w' user = account w user).
Proof.
  intros Hamount Hok. exists (world_after_credit req w).
  split; [now apply add_coins_run_ok|].
  unfold stored_balance at 1, stored_history at 1.
  rewrite (account_after_credit _ _ Hok). simpl.
  repeat split.
  intros user Hne. unfold account at 1. simpl. rewrite Hok. simpl.
  now rewrite lookup_insert_ne.
Qed.

Lemma add_coins_credits_witness :
  let r := add_coins (coins_req 250) (world0 always_ok rich_user) in
  fst r = CoinsAddedOk 350 250 "ad_view"
  /\ stored_balance (snd r) "alice" = 350.
Proof.
  destruct (add_coins_credits (coins_req 250) (world0 always_ok rich_user))
    as (w' & Hrun & Hbal & _).
  - vm_compute. split; [reflexivity | discriminate].
  - reflexivity.
  - cbv zeta. rewrite Hrun. split; [vm_compute; reflexivity|].
    cbn [snd]. etransitivity; [exact Hbal | vm_compute; reflexivity].
Defined.

(** X5. A credit whose amount is missing, zero, negative or above 1000 is
    refused with HTTP 400 and the world is returned as received: nothing is
    read, written or logged. *)
Theorem add_coins_rejects (req : CoinsRequest) (w : World) :
  coins_amount req = None \/ amount_of req <= 0 \/ 1000 < amount_of req ->
  add_coins req w = (InvalidAmount 400, w).
Proof.
  intros [Hnone|H]; apply add_coins_run_bad; [|exact H].
  left. unfold amount_of. rewrite Hnone. simpl. lia.
Qed.

Lemma add_coins_rejects_witness :
  add_coins (coins_req 1001) (world0 always_ok rich_user)
  = (InvalidAmount 400, world0 always_ok rich_user).
Proof.
  apply (add_coins_rejects (coins_req 1001) (world0 always_ok rich_user)).
  right. right. vm_compute. reflexivity.
Defined.

(** X6. When the write of [users.json] fails, an accepted credit still
    answers with the raised balance, while the stored balance and history
    are those from before the call: the result of [save_users] is not looked
    at. *)
Theorem add_coins_unsaved (req : CoinsRequest) (w : World) :
  0 < amount_of req <= 1000 ->
  disk_ok w (writes w) = false ->
  exists w',
    add_coins req w
    = (CoinsAddedOk (stored_balance w (payee_of req) + amount_of req)
                    (amount_of req) (reason_of req), w')
    /\ users_file w' = users_file w
    /\ stored_balance w' (payee_of req) = stored_balance w (payee_of req)
    /\ stored_history w' (payee_of req) = stored_history w (payee_of req).
Proof.
  intros Hamount Hok. exists (world_after_credit req w).
  split; [now apply add_coins_run_ok|].
  assert (users_file (world_after_credit req w) = users_file w) as Hu
    by (simpl; now rewrite Hok).
  unfold stored_balance, stored_history, account. rewrite Hu. repeat split.
Qed.

Lemma add_coins_unsaved_witness :
  let r := add_coins (coins_req 250) (world0 (fun _ => false) rich_user) in
  fst r = CoinsAddedOk 350 250 "ad_view"
  /\ stored_balance (snd r) "alice" = 100.
Proof.
  destruct (add_coins_unsaved (coins_req 250)
                              (world0 (fun _ => false) rich_user))
    as (w' & Hrun & _ & Hbal & _).
  - vm_compute. split; [reflexivity | discriminate].
  - reflexivity.
  - cbv zeta. rewrite Hrun. split; [vm_compute; reflexivity|].
    cbn [snd]. etransitivity; [exact Hbal | vm_compute; reflexivity].
Defined.

Lemma stored_balance_after_add req w user :
  stored_balance (world_after_add req w) user
  = if disk_ok w (S (writes w)) && bool_decide (user = user_of req)
    then stored_balance w (user_of req) - COIN_COST_PER_UID
    else stored_balance w user.
Proof.
  unfold stored_balance at 1, account at 1. simpl.
  destruct (disk_ok w (S (writes w))); simpl; [|reflexivity].
  case_bool_decide as Hu.
  - subst user. now rewrite lookup_insert_eq.
  - now rewrite lookup_insert_ne.
Qed.

Lemma stored_balance_after_credit req w user :
  stored_balance (world_after_credit req w) user
  = if disk_ok w (writes w) && bool_decide (user = payee_of req)
    then stored_balance w (payee_of req) + amount_of req
    else stored_balance w user.
Proof.
  unfold stored_balance at 1, account at 1. simpl.
  destruct (disk_ok w (writes w)); simpl; [|reflexivity].
  case_bool_decide as Hu.
  - subst user. now rewrite lookup_insert_eq.
  - now rewrite lookup_insert_ne.
Qed.

(** X7. No handler drives a balance below zero: if every stored balance is
    non-negative, it still is after any add to a whitelist and after any
    credit, whatever the request and whether the writes succeed. *)
Theorem balances_stay_nonneg (areq : AddRequest) (creq : CoinsRequest)
        (w : World) :
  balances_nonneg w ->
  balances_nonneg (snd (add_to_whitelist areq w))
  /\ balances_nonneg (snd (add_coins creq w)).
Proof.
  intros Hw. split; intros user.
  - destruct (add_outcome areq w)
      as [[e ->]|[[have ->]|[->|(_ & Hbal & _ & ->)]]]; try apply Hw.
    cbn [snd]. rewrite stored_balance_after_add.
    destruct (_ && _); [lia | apply Hw].
  - destruct (Z.le_gt_cases (amount_of creq) 0) as [Hle|Hgt];
      [rewrite add_coins_run_bad by auto; apply Hw|].
    destruct (Z.lt_ge_cases 1000 (amount_of creq)) as [Hbig|Hok];
      [rewrite add_coins_run_bad by auto; apply Hw|].
    rewrite add_coins_run_ok by lia. cbn [snd].
    rewrite stored_balance_after_credit.
    destruct (_ && _); [|apply Hw].
    specialize (Hw (payee_of creq)). lia.
Qed.

Lemma world0_balances_nonneg ok : balances_nonneg (world0 ok rich_user).
Proof.
  intros user. unfold stored_balance, account, world0, rich_user. simpl.
  rewrite lookup_singleton. case_decide; simpl; lia.
Qed.

Lemma balances_stay_nonneg_witness :
  0 <= stored_balance
         (snd (add_to_whitelist (add_req "12345" "IND" (Some 2))
                                (world0 always_ok rich_user))) "alice".
Proof.
  destruct (balances_stay_nonneg
              (add_req "12345" "IND" (Some 2)) (coins_req 5)
              (world0 always_ok rich_user)) as [Hadd _].
  - apply world0_balances_nonneg.
  - exact (Hadd "alice").
Defined.

Lemma stored_history_after_add req w user :
  stored_history (world_after_add req w) user
  = if disk_ok w (S (writes w)) && bool_decide (user = user_of req)
    then (stored_history w (user_of req)
          ++ [whitelist_add (uid_of req) (region_of req) (hours_of req)
                            COIN_COST_PER_UID (clock w (S (ticks w)))])%list
    else stored_history w user.
Proof.
  unfold stored_history at 1, account at 1. simpl.
  destruct (disk_ok w (S (writes w))); simpl; [|reflexivity].
  case_bool_decide as Hu.
  - subst user. now rewrite lookup_insert_eq.
  - now rewrite lookup_insert_ne.
Qed.

Lemma stored_history_after_credit req w user :
  stored_history (world_after_credit req w) user
  = if disk_ok w (writes w) && bool_decide (user = payee_of req)
    then (stored_history w (payee_of req)
          ++ [coins_add (amount_of req) (reason_of req)
                        (clock w (ticks w))])%list
    else stored_history w user.
Proof.
  unfold stored_history at 1, account at 1. simpl.
  destruct (disk_ok w (writes w)); simpl; [|reflexivity].
  case_bool_decide as Hu.
  - subst user. now rewrite lookup_insert_eq.
  - now rewrite lookup_insert_ne.
Qed.

(** X8. Histories are append-only: after any add to a whitelist and after
    any credit, every user's stored history is the one from before followed
    by at most one new entry. *)
Theorem history_append_only (areq : AddRequest) (creq : CoinsRequest)
        (w : World) (user : string) :
  (exists suffix,
      stored_history (snd (add_to_whitelist areq w)) user
      = (stored_history w user ++ suffix)%list
      /\ (length suffix <= 1)%nat)
  /\ (exists suffix,
        stored_history (snd (add_coins creq w)) user
        = (stored_history w user ++ suffix)%list
        /\ (length suffix <= 1)%nat).
Proof.
  assert (forall h : list HistoryEntry,
             exists suffix, h = (h ++ suffix)%list /\ (length suffix <= 1)%nat)
    as Hsame by (intros h; exists []; rewrite app_nil_r; simpl; auto).
  split.
  - destruct (add_outcome areq w)
      as [[e ->]|[[have ->]|[->|(_ & _ & _ & ->)]]]; try apply Hsame.
    cbn [snd]. rewrite stored_history_after_add.
    destruct (disk_ok w (S (writes w))); cbn [andb]; [|apply Hsame].
    case_bool_decide as Hu; [|apply Hsame]. subst user.
    eexists. split; [reflexivity | simpl; lia].
  - destruct (Z.le_gt_cases (amount_of creq) 0) as [Hle|Hgt];
      [rewrite add_coins_run_bad by auto; apply Hsame|].
    destruct (Z.lt_ge_cases 1000 (amount_of creq)) as [Hbig|Hok];
      [rewrite add_coins_run_bad by auto; apply Hsame|].
    rewrite add_coins_run_ok by lia. cbn [snd].
    rewrite stored_history_after_credit.
    destruct (disk_ok w (writes w)); cbn [andb]; [|apply Hsame].
    case_bool_decide as Hu; [|apply Hsame]. subst user.
    eexists. split; [reflexivity | simpl; lia].
Qed.

Lemma get_coin_balance_run hdr w :
  get_coin_balance hdr w
  = (BalanceOk (get_user_id hdr) (stored_balance w (get_user_id hdr)),
     world_users_read w).
Proof.
  unfold get_coin_balance, bind, load_users, ret, stored_balance, account.
  cbv beta iota zeta. fold (world_users_read w).
  now destruct (default ∅ (users_file w) !! get_user_id hdr).
Qed.

Lemma get_coin_history_run hdr w :
  get_coin_history hdr w
  = (HistoryOk (stored_history w (get_user_id hdr)), world_users_read w).
Proof. reflexivity. Qed.

(** X9. Credit, then query: after an accepted credit whose write succeeded,
    the balance endpoint reports the old balance plus the amount and the
    history endpoint returns the old history followed by the new
    [coins_add] entry. *)
Theorem credit_then_query (req : CoinsRequest) (w : World) :
  0 < amount_of req <= 1000 ->
  disk_ok w (writes w) = true ->
  let w1 := snd (add_coins req w) in
  fst (get_coin_balance (coins_user req) w1)
  = BalanceOk (payee_of req) (stored_balance w (payee_of req) + amount_of req)
  /\ fst (get_coin_history (coins_user req) w1)
     = HistoryOk (stored_history w (payee_of req)
                  ++ [coins_add (amount_of req) (reason_of req)
                                (clock w (ticks w))])%list.
Proof.
  intros Hamount Hok w1. unfold w1.
  rewrite add_coins_run_ok by exact Hamount. cbn [snd].
  rewrite get_coin_balance_run, get_coin_history_run. cbn [fst].
  fold (payee_of req).
  rewrite stored_balance_after_credit, stored_history_after_credit, Hok.
  rewrite bool_decide_eq_true_2 by reflexivity. split; reflexivity.
Qed.

Lemma credit_then_query_witness :
  fst (get_coin_balance (Some "alice")
         (snd (add_coins (coins_req 250) (world0 always_ok rich_user))))
  = BalanceOk "alice" 350.
Proof.
  destruct (credit_then_query (coins_req 250) (world0 always_ok rich_user))
    as [Hbal _].
  - vm_compute. split; [reflexivity | discriminate].
  - reflexivity.
  - etransitivity; [exact Hbal | vm_compute; reflexivity].
Defined.

(** X10. A user that [users.json] does not know has balance 0 and an empty
    history, and asking for either creates no account: the file is left as
    it was and no write is attempted. *)
Theorem unknown_user_reads_zero (hdr : option string) (w : World) :
  default ∅ (users_file w) !! get_user_id hdr = None ->
  exists w1 w2,
    get_coin_balance hdr w = (BalanceOk (get_user_id hdr) 0, w1)
    /\ get_coin_history hdr w = (HistoryOk [], w2)
    /\ same_files w w1 /\ same_files w w2.
Proof.
  intros Hnone. exists (world_users_read w), (world_users_read w).
  rewrite get_coin_balance_run, get_coin_history_run.
  unfold stored_balance, stored_history, account. rewrite Hnone.
  repeat split.
Qed.

Lemma unknown_user_reads_zero_witness :
  fst (get_coin_balance (Some "bob") (world0 always_ok rich_user))
  = BalanceOk "bob" 0.
Proof.
  destruct (unknown_user_reads_zero (Some "bob") (world0 always_ok rich_user))
    as (w1 & w2 & Hbal & _).
  - vm_compute. reflexivity.
  - now rewrite Hbal.
Defined.

(** X11. Credit, then paid add by the same user, all three writes
    succeeding: the balance ends at old + amount - cost, so a credit of
    exactly the cost followed by an add leaves the balance where it started,
    and the history gains the credit entry followed by the add entry. *)
Theorem credit_then_debit (creq : CoinsRequest) (areq : AddRequest)
        (w : World) :
  payee_of creq = user_of areq ->
  0 < amount_of creq <= 1000 ->
  valid_add areq ->
  COIN_COST_PER_UID <= stored_balance w (payee_of creq) + amount_of creq ->
  disk_ok w (writes w) = true ->
  disk_ok w (S (writes w)) = true ->
  disk_ok w (S (S (writes w))) = true ->
  let user := payee_of creq in
  let w1 := snd (add_coins creq w) in
  let w2 := snd (add_to_whitelist areq w1) in
  stored_balance w2 user
  = stored_balance w user + amount_of creq - COIN_COST_PER_UID
  /\ (amount_of creq = COIN_COST_PER_UID ->
      stored_balance w2 user = stored_balance w user)
  /\ stored_history w2 user
     = (stored_history w user
        ++ [coins_add (amount_of creq) (reason_of creq) (clock w (ticks w));
            whitelist_add (uid_of areq) (region_of areq) (hours_of areq)
                          COIN_COST_PER_UID
                          (clock w (S (S (ticks w))))])%list.
Proof.
  intros Huser Hamount Hvalid Hfunds Hw0 Hw1 Hw2 user w1 w2.
  assert (w1 = world_after_credit creq w) as E1
    by (unfold w1; now rewrite add_coins_run_ok).
  assert (stored_balance w1 user
          = stored_balance w user + amount_of creq) as Hb1.
  { rewrite E1, stored_balance_after_credit, Hw0.
    now rewrite bool_decide_eq_true_2. }
  assert (stored_history w1 user
          = (stored_history w user
             ++ [coins_add (amount_of creq) (reason_of creq)
                           (clock w (ticks w))])%list) as Hh1.
  { rewrite E1, stored_history_after_credit, Hw0.
    now rewrite bool_decide_eq_true_2. }
  assert (w2 = world_after_add areq w1) as E2.
  { unfold w2. rewrite add_run_saved; [reflexivity | exact Hvalid | |].
    - rewrite <- Huser. fold user. rewrite Hb1. exact Hfunds.
    - now rewrite E1. }
  assert (disk_ok w1 (S (writes w1)) = true) as Hw2'
    by (now rewrite E1).
  assert (stored_balance w2 user
          = stored_balance w user + amount_of creq - COIN_COST_PER_UID)
    as Hb2.
  { rewrite E2, stored_balance_after_add, Hw2', <- Huser. fold user.
    rewrite bool_decide_eq_true_2 by reflexivity. cbn [andb].
    now rewrite Hb1. }
  split; [exact Hb2|]. split; [intros Ha; rewrite Hb2; lia|].
  rewrite E2, stored_history_after_add, Hw2', <- Huser. fold user.
  rewrite bool_decide_eq_true_2 by reflexivity. cbn [andb].
  rewrite Hh1, <- app_assoc. simpl. do 4 f_equal. now rewrite E1.
Qed.

Lemma credit_then_debit_witness :
  stored_balance
    (snd (add_to_whitelist (add_req "12345" "IND" (Some 2))
            (snd (add_coins (coins_req 100) (world0 always_ok rich_user)))))
    "alice"
  = 100.
Proof.
  destruct (credit_then_debit (coins_req 100) (add_req "12345" "IND" (Some 2))
                              (world0 always_ok rich_user))
    as (_ & Hback & _).
  - reflexivity.
  - vm_compute. split; [reflexivity | discriminate].
  - check_valid.
  - vm_compute. discriminate.
  - reflexivity.
  - reflexivity.
  - reflexivity.
  - etransitivity; [apply Hback; reflexivity | vm_compute; reflexivity].
Defined.

(** ** Removal, path by path *)

Lemma mem_true_iff k d : Dict.mem k d = true <-> exists v, Dict.get k d = Some v.
Proof.
  unfold Dict.mem. destruct (Dict.get k d); split; eauto; try discriminate.
  intros [v [=]].
Qed.

Lemma get_del_ne k k' d : k' <> k -> Dict.get k' (Dict.del k d) = Dict.get k' d.
Proof.
  intros Hne. induction d as [|[k0 v0] d IH]; simpl; [reflexivity|].
  destruct (String.eqb_spec k k0) as [->|Hk]; simpl.
  - destruct (String.eqb_spec k' k0); [congruence | reflexivity].
  - now rewrite IH.
Qed.

Lemma get_del_eq k d : Dict.wf d -> Dict.get k (Dict.del k d) = None.
Proof.
  induction d as [|[k0 v0] d IH]; simpl; [reflexivity|].
  intros [Hk Hd]%wf_cons.
  destruct (String.eqb_spec k k0) as [->|Hne]; simpl.
  - now apply get_None_keys.
  - destruct (String.eqb_spec k k0); [congruence | auto].
Qed.

(** Deleting a key just assigned for the first time gives the dict back. *)
Lemma del_set_fresh k v d :
  Dict.get k d = None -> Dict.del k (Dict.set k v d) = d.
Proof.
  induction d as [|[k0 v0] d IH]; simpl.
  - now rewrite String.eqb_refl.
  - destruct (String.eqb_spec k k0) as [->|Hne]; [discriminate|].
    intros H. simpl.
    destruct (String.eqb_spec k k0); [congruence|]. now rewrite IH.
Qed.

Lemma remove_run_found req w :
  rm_uid_of req <> EmptyString ->
  rm_region_of req ∈ ALL_REGIONS ->
  Dict.mem (rm_uid_of req) (partition w (rm_region_of req)) = true ->
  remove_from_whitelist req w
  = (if disk_ok w (writes w)
     then RemoveOk (rm_uid_of req) (rm_region_of req)
     else Failure 500 FailedToSaveWhitelist,
     world_after_remove req w).
Proof.
  intros Huid Hreg Hmem. unfold remove_from_whitelist.
  fold (rm_uid_of req) (rm_region_of req).
  rewrite (is_empty_false _ Huid), (bool_decide_eq_true_2 _ Hreg).
  cbn [negb]. unfold bind, load_whitelist, save_whitelist, ret.
  cbv beta iota zeta. cbn [wl_files disk_ok writes].
  fold (partition w (rm_region_of req)). rewrite Hmem. simpl.
  unfold world_after_remove. simpl.
  now destruct (disk_ok w (writes w)).
Qed.

Lemma partition_after_remove req w :
  disk_ok w (writes w) = true ->
  partition (world_after_remove req w) (rm_region_of req)
  = Dict.del (rm_uid_of req) (partition w (rm_region_of req)).
Proof.
  intros Hok. unfold partition at 1. simpl. rewrite Hok.
  now rewrite lookup_insert_eq.
Qed.

(** X12. A remove of a uid that is in the region's whitelist, with the write
    succeeding, answers success; afterwards the uid is no longer in that
    whitelist and every other entry is still there, in the same order. *)
Theorem remove_deletes_entry (req : RemoveRequest) (w : World) :
  rm_uid_of req <> EmptyString ->
  rm_region_of req ∈ ALL_REGIONS ->
  Dict.mem (rm_uid_of req) (partition w (rm_region_of req)) = true ->
  disk_ok w (writes w) = true ->
  Dict.wf (partition w (rm_region_of req)) ->
  exists w',
    remove_from_whitelist req w
    = (RemoveOk (rm_uid_of req) (rm_region_of req), w')
    /\ partition w' (rm_region_of req)
       = List.filter (fun kv => negb (String.eqb (fst kv) (rm_uid_of req)))
                     (partition w (rm_region_of req))
    /\ Dict.get (rm_uid_of req) (partition w' (rm_region_of req)) = None
    /\ (forall uid, uid <> rm_uid_of req ->
          Dict.get uid (partition w' (rm_region_of req))
          = Dict.get uid (partition w (rm_region_of req))).
Proof.
  intros Huid Hreg Hmem Hok Hwf. exists (world_after_remove req w).
  rewrite remove_run_found, Hok by assumption.
  split; [reflexivity|]. rewrite partition_after_remove by exact Hok.
  split; [now apply del_filter|]. split; [now apply get_del_eq|].
  intros uid Hne. now apply get_del_ne.
Qed.

Lemma remove_deletes_entry_witness :
  let r := remove_from_whitelist (rm_req " 333 " "ind")
                                 (world0 always_ok rich_user) in
  fst r = RemoveOk "333" "IND"
  /\ partition (snd r) "IND" = [("111", 500); ("222", 2000); ("444", 1500)].
Proof.
  destruct (remove_deletes_entry (rm_req " 333 " "ind")
                                 (world0 always_ok rich_user))
    as (w' & Hrun & Hafter & _).
  - discriminate.
  - in_registry.
  - reflexivity.
  - reflexivity.
  - check_wf.
  - cbv zeta. rewrite Hrun. split; [reflexivity|].
    cbn [snd]. etransitivity; [exact Hafter | reflexivity].
Defined.



(** X14. A remove whose write fails answers 500 "Failed to save whitelist"
    and the uid is still whitelisted: every file is as before. *)
Theorem remove_save_failure (req : RemoveRequest) (w : World) :
  rm_uid_of req <> EmptyString ->
  rm_region_of req ∈ ALL_REGIONS ->
  Dict.mem (rm_uid_of req) (partition w (rm_region_of req)) = true ->
  disk_ok w (writes w) = false ->
  exists w',
    remove_from_whitelist req w = (Failure 500 FailedToSaveWhitelist, w')
    /\ wl_files w' = wl_files w
    /\ users_file w' = users_file w
    /\ Dict.mem (rm_uid_of req) (partition w' (rm_region_of req)) = true.
Proof.
  intros Huid Hreg Hmem Hok. exists (world_after_remove req w).
  rewrite remove_run_found, Hok by assumption.
  split; [reflexivity|].
  assert (wl_files (world_after_remove req w) = wl_files w) as Hf
    by (simpl; now rewrite Hok).
  split; [exact Hf|]. split; [reflexivity|].
  unfold partition. rewrite Hf. exact Hmem.
Qed.

Lemma remove_save_failure_witness :
  let r := remove_from_whitelist (rm_req "333" "IND")
                                 (world0 (fun _ => false) rich_user) in
  fst r = Failure 500 FailedToSaveWhitelist
  /\ Dict.mem "333" (partition (snd r) "IND") = true.
Proof.
  destruct (remove_save_failure (rm_req "333" "IND")
                                (world0 (fun _ => false) rich_user))
    as (w' & Hrun & _ & _ & Hmem).
  - discriminate.
  - in_registry.
  - reflexivity.
  - reflexivity.
  - cbv zeta. rewrite Hrun. split; [reflexivity | exact Hmem].
Defined.


(** ** Checks, and how the operations compose *)

Lemma upper_in_registry_nonempty r :
  PyStr.upper r ∈ ALL_REGIONS -> PyStr.is_empty r = false.
Proof.
  destruct r; [|reflexivity]. intros H.
  apply (bool_decide_pack _) in H. vm_compute in H. destruct H.
Qed.

Lemma check_run_region req w r :
  chk_uid_of req <> EmptyString ->
  chk_region req = Some r ->
  PyStr.upper r ∈ ALL_REGIONS ->
  let now := clock w (ticks w) in
  exists w',
    check_whitelist req w
    = (match Dict.get (chk_uid_of req) (partition w (PyStr.upper r)) with
       | Some expiry =>
           if expiry >? now
           then Whitelisted (PyStr.upper r) expiry (expiry - now)
           else NotWhitelisted
       | None => NotWhitelisted
       end, w')
    /\ same_files w w'.
Proof.
  intros Huid Hr Hreg now. unfold check_whitelist. fold (chk_uid_of req).
  rewrite (is_empty_false _ Huid), Hr. unfold bind, time_time.
  cbv beta iota zeta. fold now.
  rewrite (upper_in_registry_nonempty _ Hreg), (bool_decide_eq_true_2 _ Hreg).
  cbn [negb]. unfold load_whitelist, ret. cbv beta iota zeta.
  cbn [wl_files]. fold (partition w (PyStr.upper r)).
  destruct (Dict.get (chk_uid_of req) (partition w (PyStr.upper r)))
    as [expiry|]; [destruct (expiry >? now)|];
    eexists; (split; [reflexivity | repeat split]).
Qed.

(** X16. A check that names a registry region in which the uid has a running
    entry answers whitelisted = true with that region, the stored expiry and
    a positive time_remaining = expiry - now; no file is changed. *)
Theorem check_active_in_region (req : CheckRequest) (w : World)
        (r : string) (expiry : Z) :
  chk_uid_of req <> EmptyString ->
  chk_region req = Some r ->
  PyStr.upper r ∈ ALL_REGIONS ->
  let now := clock w (ticks w) in
  active_in w now (chk_uid_of req) (PyStr.upper r) expiry ->
  exists w',
    check_whitelist req w
    = (Whitelisted (PyStr.upper r) expiry (expiry - now), w')
    /\ 0 < expiry - now
    /\ same_files w w'.
Proof.
  intros Huid Hr Hreg now [Hget Hgt].
  destruct (check_run_region req w r Huid Hr Hreg) as (w' & Hrun & Hsame).
  fold now in Hrun. rewrite Hget in Hrun.
  replace (expiry >? now) with true in Hrun
    by (symmetry; rewrite Z.gtb_ltb; apply Z.ltb_lt; lia).
  exists w'. split; [exact Hrun|]. split; [lia | exact Hsame].
Qed.

Lemma check_active_in_region_witness :
  fst (check_whitelist (chk_req "444" "ind") (world0 always_ok rich_user))
  = Whitelisted "IND" 1500 500.
Proof.
  destruct (check_active_in_region (chk_req "444" "ind")
                                   (world0 always_ok rich_user) "ind" 1500)
    as (w' & Hrun & _).
  - discriminate.
  - reflexivity.
  - in_registry.
  - split; [reflexivity | vm_compute; reflexivity].
  - now rewrite Hrun.
Defined.


(** X18. Add, then check: after an add that went through, a check of the
    same uid in the same region made before the expiry answers
    whitelisted = true with the expiry the add reported. *)
Theorem add_then_check (areq : AddRequest) (creq : CheckRequest)
        (r : string) (w : World) :
  valid_add areq ->
  COIN_COST_PER_UID <= stored_balance w (user_of areq) ->
  disk_ok w (writes w) = true ->
  Dict.wf (partition w (region_of areq)) ->
  chk_uid_of creq = uid_of areq ->
  chk_region creq = Some r ->
  PyStr.upper r = region_of areq ->
  let expiry := clock w (ticks w) + hours_of areq * 3600 in
  let later := clock w (S (S (ticks w))) in
  later < expiry ->
  fst (check_whitelist creq (snd (add_to_whitelist areq w)))
  = Whitelisted (region_of areq) expiry (expiry - later).
Proof.
  intros Hvalid Hbal Hok Hwf Huid Hr Hreg expiry later Hlt.
  rewrite add_run_saved by assumption. cbn [snd].
  assert (region_of areq ∈ ALL_REGIONS) as Hin by apply Hvalid.
  destruct (check_run_region creq (world_after_add areq w) r)
    as (w' & Hrun & _).
  - rewrite Huid. intros E. destruct Hvalid as (Hd & _).
    rewrite E in Hd. discriminate.
  - exact Hr.
  - now rewrite Hreg.
  - rewrite Hrun. cbn [fst].
    rewrite Huid, Hreg, partition_after_add, get_set_eq.
    change (clock (world_after_add areq w) (ticks (world_after_add areq w)))
      with later.
    fold expiry.
    replace (expiry >? later) with true
      by (symmetry; rewrite Z.gtb_ltb; apply Z.ltb_lt; lia).
    reflexivity.
Qed.

Lemma add_then_check_witness :
  fst (check_whitelist (chk_req "12345" "ind")
         (snd (add_to_whitelist (add_req "12345" "IND" (Some 2))
                                (world0 always_ok rich_user))))
  = Whitelisted "IND" 8200 7200.
Proof.
  apply (add_then_check (add_req "12345" "IND" (Some 2))
                        (chk_req "12345" "ind") "ind"
                        (world0 always_ok rich_user)).
  - check_valid.
  - vm_compute. discriminate.
  - reflexivity.
  - check_wf.
  - reflexivity.
  - reflexivity.
  - reflexivity.
  - vm_compute. reflexivity.
Defined.

(** X19. Add, then remove: for a uid that was not in the region's whitelist,
    a successful add followed by a successful remove of the same uid leaves
    that whitelist exactly as it was before the add, while the caller stays
    charged: a remove refunds nothing. *)
Theorem add_then_remove_restores (areq : AddRequest) (rreq : RemoveRequest)
        (w : World) :
  valid_add areq ->
  COIN_COST_PER_UID <= stored_balance w (user_of areq) ->
  disk_ok w (writes w) = true ->
  disk_ok w (S (writes w)) = true ->
  disk_ok w (S (S (writes w))) = true ->
  Dict.get (uid_of areq) (partition w (region_of areq)) = None ->
  rm_uid_of rreq = uid_of areq ->
  rm_region_of rreq = region_of areq ->
  let w1 := snd (add_to_whitelist areq w) in
  let w2 := snd (remove_from_whitelist rreq w1) in
  fst (remove_from_whitelist rreq w1)
  = RemoveOk (uid_of areq) (region_of areq)
  /\ partition w2 (region_of areq) = partition w (region_of areq)
  /\ stored_balance w2 (user_of areq)
     = stored_balance w (user_of areq) - COIN_COST_PER_UID.
Proof.
  intros Hvalid Hbal Hw0 Hw1 Hw2 Hfresh Huid Hreg w1 w2.
  assert (w1 = world_after_add areq w) as E1
    by (unfold w1; now rewrite add_run_saved).
  assert (remove_from_whitelist rreq w1
          = (RemoveOk (uid_of areq) (region_of areq),
             world_after_remove rreq w1)) as E2.
  { rewrite remove_run_found.
    - replace (disk_ok w1 (writes w1)) with true
        by (rewrite E1; symmetry; exact Hw2).
      now rewrite Huid, Hreg.
    - rewrite Huid. intros E. destruct Hvalid as (Hd & _).
      rewrite E in Hd. discriminate.
    - rewrite Hreg. apply Hvalid.
    - rewrite Huid, Hreg, E1, partition_after_add.
      apply mem_true_iff. eexists. apply get_set_eq. }
  unfold w2. rewrite E2. cbn [fst snd]. split; [reflexivity|]. split.
  - rewrite <- Hreg, partition_after_remove by (rewrite E1; exact Hw2).
    rewrite Huid, Hreg, E1, partition_after_add.
    now apply del_set_fresh.
  - unfold stored_balance, account. simpl. rewrite E1. simpl.
    rewrite Hw1. simpl. now rewrite lookup_insert_eq.
Qed.

Lemma add_then_remove_restores_witness :
  partition
    (snd (remove_from_whitelist (rm_req "12345" "IND")
            (snd (add_to_whitelist (add_req "12345" "IND" (Some 2))
                                   (world0 always_ok rich_user)))))
    "IND"
  = partition (world0 always_ok rich_user) "IND".
Proof.
  destruct (add_then_remove_restores
              (add_req "12345" "IND" (Some 2)) (rm_req "12345" "IND")
              (world0 always_ok rich_user))
    as (_ & Hsame & _).
  - check_valid.
  - vm_compute. discriminate.
  - reflexivity.
  - reflexivity.
  - reflexivity.
  - reflexivity.
  - reflexivity.
  - reflexivity.
  - exact Hsame.
Defined.

(** X20. Remove, then check: after a successful remove, a check of that uid
    in that region answers whitelisted = false. *)
Theorem remove_then_check (rreq : RemoveRequest) (creq : CheckRequest)
        (r : string) (w : World) :
  rm_uid_of rreq <> EmptyString ->
  rm_region_of rreq ∈ ALL_REGIONS ->
  Dict.mem (rm_uid_of rreq) (partition w (rm_region_of rreq)) = true ->
  disk_ok w (writes w) = true ->
  Dict.wf (partition w (rm_region_of rreq)) ->
  chk_uid_of creq = rm_uid_of rreq ->
  chk_region creq = Some r ->
  PyStr.upper r = rm_region_of rreq ->
  fst (check_whitelist creq (snd (remove_from_whitelist rreq w)))
  = NotWhitelisted.
Proof.
  intros Huid Hreg Hmem Hok Hwf Hcu Hr Hcr.
  rewrite remove_run_found by assumption. cbn [snd].
  destruct (check_run_region creq (world_after_remove rreq w) r)
    as (w' & Hrun & _).
  - now rewrite Hcu.
  - exact Hr.
  - now rewrite Hcr.
  - rewrite Hrun. cbn [fst].
    rewrite Hcu, Hcr, partition_after_remove by exact Hok.
    now rewrite get_del_eq.
Qed.

Lemma remove_then_check_witness :
  fst (check_whitelist (chk_req "444" "IND")
         (snd (remove_from_whitelist (rm_req "444" "IND")
                                     (world0 always_ok rich_user))))
  = NotWhitelisted.
Proof.
  apply (remove_then_check (rm_req "444" "IND") (chk_req "444" "IND") "IND"
                           (world0 always_ok rich_user)).
  - discriminate.
  - in_registry.
  - reflexivity.
  - reflexivity.
  - check_wf.
  - reflexivity.
  - reflexivity.
  - reflexivity.
Defined.

(** ** Read-only endpoints *)

Lemma same_files_refl w : same_files w w.
Proof. repeat split. Qed.

Lemma check_all_regions_same uid now regions w :
  same_files w (snd (check_all_regions uid now regions w)).
Proof.
  revert w. induction regions as [|r regions IH]; intros w;
    [apply same_files_refl|].
  cbn [check_all_regions]. unfold bind, load_whitelist at 1.
  cbv beta iota zeta.
  set (w1 := mkWorld _ _ _ _ _ _ _).
  assert (same_files w w1) as H1 by repeat split.
  destruct (Dict.get uid _) as [expiry|];
    [destruct (expiry >? now); [exact H1|]|];
    (eapply same_files_trans; [exact H1 | apply IH]).
Qed.

Lemma stats_loop_run now regions total act w :
  exists w',
    stats_loop now regions total act w
    = ((total + registry_total w regions,
        act + registry_active w now regions), w')
    /\ same_files w w'.
Proof.
  revert total act w.
  induction regions as [|r regions IH]; intros total act w.
  - exists w. simpl. unfold ret. rewrite !Z.add_0_r.
    split; [reflexivity | apply same_files_refl].
  - cbn [stats_loop]. unfold bind, load_whitelist at 1. cbv beta iota zeta.
    fold (partition w r).
    set (w1 := mkWorld _ _ _ _ _ _ _).
    destruct (IH (total + Z.of_nat (length (partition w r)))
                 (act + count_active now (partition w r)) w1)
      as (w' & -> & Hsame).
    exists w'. split; [|exact Hsame].
    change (registry_total w (r :: regions))
      with (Z.of_nat (length (partition w r)) + registry_total w regions).
    change (registry_active w now (r :: regions))
      with (count_active now (partition w r) + registry_active w now regions).
    change (registry_total w1 regions) with (registry_total w regions).
    change (registry_active w1 now regions)
      with (registry_active w now regions).
    now rewrite !Z.add_assoc.
Qed.

(** X21. The read endpoints never change a file and never attempt a write:
    this holds for the check, both lists, the balance, the history and the
    statistics, whatever they are asked. *)
Theorem reads_change_nothing (creq : CheckRequest) (region : string)
        (hdr : option string) (w : World) :
  same_files w (snd (check_whitelist creq w))
  /\ same_files w (snd (list_whitelist w))
  /\ same_files w (snd (list_whitelist_by_region region w))
  /\ same_files w (snd (get_coin_balance hdr w))
  /\ same_files w (snd (get_coin_history hdr w))
  /\ same_files w (snd (get_stats w)).
Proof.
  split; [|split; [|split; [|split; [|split]]]].
  - unfold check_whitelist.
    destruct (PyStr.is_empty _); [apply same_files_refl|].
    unfold bind, time_time. cbv beta iota zeta.
    set (w1 := mkWorld _ _ _ _ _ _ _).
    assert (same_files w w1) as H1 by repeat split.
    destruct (chk_region creq) as [r|];
      [destruct (PyStr.is_empty r); cbn [negb]|];
      try (eapply same_files_trans;
           [exact H1 | apply check_all_regions_same]).
    destruct (bool_decide _); cbn [negb]; [|exact H1].
    unfold load_whitelist, ret. cbv beta iota zeta.
    destruct (Dict.get _ _) as [expiry|];
      [destruct (expiry >? _)|]; repeat split.
  - destruct (list_all_sorted w) as (l & w' & -> & _ & _ & _ & Hsame).
    exact Hsame.
  - unfold list_whitelist_by_region.
    destruct (bool_decide _); cbn [negb]; [|apply same_files_refl].
    repeat split.
  - rewrite get_coin_balance_run. repeat split.
  - rewrite get_coin_history_run. repeat split.
  - unfold get_stats, bind, time_time. cbv beta iota zeta.
    match goal with
    | |- context [stats_loop ?n ALL_REGIONS 0 0 ?w1] =>
        destruct (stats_loop_run n ALL_REGIONS 0 0 w1) as (w' & -> & Hsame)
    end.
    unfold load_users, ret. cbv beta iota zeta. cbn [snd].
    destruct Hsame as (Hf & Hu & Hn). repeat split; assumption.
Qed.

Lemma count_active_expired now d :
  count_active now d
  + Z.of_nat (length (List.filter (is_expired now) d))
  = Z.of_nat (length d).
Proof.
  unfold count_active. induction d as [|[k v] d IH]; [reflexivity|].
  cbn [map snd List.filter is_expired length].
  rewrite gtb_negb_leb. destruct (v <=? now); cbn [negb length]; lia.
Qed.

Lemma registry_counts w now regions :
  registry_active w now regions + registry_expired w now regions
  = registry_total w regions
  /\ 0 <= registry_active w now regions
  /\ 0 <= registry_expired w now regions.
Proof.
  induction regions as [|r regions (IH & Ha & He)];
    [repeat split; reflexivity|].
  change (registry_total w (r :: regions))
    with (Z.of_nat (length (partition w r)) + registry_total w regions).
  change (registry_active w now (r :: regions))
    with (count_active now (partition w r) + registry_active w now regions).
  change (registry_expired w now (r :: regions))
    with (Z.of_nat (length (List.filter (is_expired now) (partition w r)))
          + registry_expired w now regions).
  pose proof (count_active_expired now (partition w r)) as Hc.
  assert (0 <= count_active now (partition w r)) as Hpos
    by (unfold count_active; lia).
  repeat split; lia.
Qed.

(** X22. The statistics add up: total_whitelisted is the number of entries
    stored over the 13 regions, active_whitelisted the number of those with
    expiry > now, expired_whitelisted the number with expiry <= now, so that
    total = active + expired and none of the three is negative; total_users
    is the number of accounts in [users.json]. *)
Theorem stats_add_up (w : World) :
  let now := clock w (ticks w) in
  exists st w',
    get_stats w = (st, w')
    /\ total_whitelisted st = registry_total w ALL_REGIONS
    /\ active_whitelisted st = registry_active w now ALL_REGIONS
    /\ expired_whitelisted st = registry_expired w now ALL_REGIONS
    /\ total_whitelisted st = active_whitelisted st + expired_whitelisted st
    /\ 0 <= active_whitelisted st <= total_whitelisted st
    /\ 0 <= expired_whitelisted st
    /\ total_users st = Z.of_nat (size (default ∅ (users_file w))).
Proof.
  intros now. unfold get_stats, bind, time_time. cbv beta iota zeta.
  match goal with
  | |- context [stats_loop ?n ALL_REGIONS 0 0 ?w1] =>
      destruct (stats_loop_run n ALL_REGIONS 0 0 w1)
        as (w' & -> & (Hf & Hu & Hn))
  end.
  fold now. unfold load_users, ret. cbv beta iota zeta. cbn [fst snd].
  rewrite !Z.add_0_l.
  match goal with
  | |- context [registry_total ?w1 ALL_REGIONS] =>
      change (registry_total w1 ALL_REGIONS)
        with (registry_total w ALL_REGIONS);
      change (registry_active w1 now ALL_REGIONS)
        with (registry_active w now ALL_REGIONS)
  end.
  destruct (registry_counts w now ALL_REGIONS) as (Hsum & Ha & He).
  eexists. eexists. split; [reflexivity|].
  cbn [total_whitelisted active_whitelisted expired_whitelisted total_users].
  rewrite Hu. cbn [users_file].
  repeat split; try reflexivity; lia.
Qed.



(** ** Start-up *)

Lemma only_adds_empty_refl w : only_adds_empty w w.
Proof. repeat split; auto. Qed.

Lemma only_adds_empty_trans w1 w2 w3 :
  only_adds_empty w1 w2 -> only_adds_empty w2 w3 -> only_adds_empty w1 w3.
Proof.
  intros (H12 & Hu1 & Hd1 & Hn1) (H23 & Hu2 & Hd2 & Hn2).
  split; [|repeat split; try congruence; lia].
  intros path. destruct (H12 path) as [E1|[E1 E1']].
  - destruct (H23 path) as [E2|[E2 E2']].
    + left. now rewrite E2.
    + right. split; [now rewrite <- E1 | exact E2'].
  - destruct (H23 path) as [E2|[E2 E2']].
    + right. split; [exact E1 | etransitivity; eassumption].
    + rewrite E1' in E2. discriminate.
Qed.

Lemma bootstrap_region_step region w :
  let present :=
    bool_decide (is_Some (wl_files w !! get_whitelist_path region)) in
  let w1 := snd ((if negb present then save_whitelist region []
                  else ret true) w) in
  only_adds_empty w w1
  /\ (disk_healthy w -> is_Some (wl_files w1 !! get_whitelist_path region)).
Proof.
  cbv zeta. unfold save_whitelist, ret.
  case_bool_decide as Hpresent; cbn [negb snd].
  - split; [apply only_adds_empty_refl | auto].
  - assert (wl_files w !! get_whitelist_path region = None) as Hnone
      by (destruct (wl_files w !! get_whitelist_path region) eqn:E;
          [exfalso; apply Hpresent; eauto | reflexivity]).
    split.
    + split; [|repeat split; simpl; lia].
      intros path. cbn [wl_files].
      destruct (disk_ok w (writes w)); [|auto].
      destruct (decide (path = get_whitelist_path region)) as [->|Hne].
      * right. now rewrite lookup_insert_eq.
      * left. now rewrite lookup_insert_ne.
    + intros Hdisk. cbn [wl_files]. rewrite (Hdisk (writes w)) by lia.
      rewrite lookup_insert_eq. eauto.
Qed.

Lemma bootstrap_regions_run regions w :
  let w' := snd (bootstrap_regions regions w) in
  only_adds_empty w w'
  /\ (disk_healthy w ->
      forall r, In r regions ->
                is_Some (wl_files w' !! get_whitelist_path r)).
Proof.
  revert w. induction regions as [|region rest IH]; intros w.
  - split; [apply only_adds_empty_refl | intros _ r []].
  - cbn [bootstrap_regions]. unfold bind, whitelist_exists.
    cbv beta iota zeta.
    pose proof (bootstrap_region_step region w) as Hstep. cbv zeta in Hstep.
    destruct ((if negb (bool_decide
                          (is_Some (wl_files w !! get_whitelist_path region)))
               then save_whitelist region [] else ret true) w)
      as [saved w1].
    cbn [snd] in Hstep. destruct Hstep as (H1 & Hmade).
    destruct (IH w1) as (H2 & Hrest). split.
    + eapply only_adds_empty_trans; eassumption.
    + intros Hdisk r [<-|Hin].
      * destruct (Hmade Hdisk) as [d Hd].
        destruct H2 as (Hfiles & _).
        destruct (Hfiles (get_whitelist_path region)) as [E|[E _]];
          [rewrite E; eauto | congruence].
      * apply Hrest; [|exact Hin].
        destruct H1 as (_ & _ & Hd & Hn). intros n Hle.
        rewrite Hd. apply Hdisk. lia.
Qed.

Lemma bootstrap_run w :
  exists w1,
    only_adds_empty w w1
    /\ (disk_healthy w ->
        forall r, In r ALL_REGIONS ->
                  is_Some (wl_files w1 !! get_whitelist_path r))
    /\ snd (bootstrap w)
       = if bool_decide (is_Some (users_file w1)) then w1
         else snd (save_users ∅ w1).
Proof.
  pose proof (bootstrap_regions_run ALL_REGIONS w) as Hrun. cbv zeta in Hrun.
  unfold bootstrap, bind, users_exists, ret.
  destruct (bootstrap_regions ALL_REGIONS w) as [[] w1]. cbn [snd] in Hrun.
  exists w1. destruct Hrun as (H1 & Hmade).
  split; [exact H1|]. split; [exact Hmade|].
  cbv beta iota zeta. case_bool_decide; cbn [negb]; [reflexivity|].
  now destruct (save_users ∅ w1).
Qed.

(** X24. The start-up code never changes what is stored: every file that
    exists keeps its content, every region's whitelist reads the same after
    it as before, and so does every account; the only thing it may do is
    create empty files, whether or not its writes succeed. *)
Theorem bootstrap_keeps_contents (w : World) :
  let w' := snd (bootstrap w) in
  (forall path d, wl_files w !! path = Some d -> wl_files w' !! path = Some d)
  /\ (forall r, partition w' r = partition w r)
  /\ (forall users, users_file w = Some users -> users_file w' = Some users)
  /\ (forall user, account w' user = account w user).
Proof.
  intros w'. subst w'.
  destruct (bootstrap_run w) as (w1 & (Hfiles & Hu & _) & _ & ->).
  assert (forall path d, wl_files w !! path = Some d ->
                         wl_files w1 !! path = Some d) as Hkeep.
  { intros path d Hd. destruct (Hfiles path) as [E|[E _]].
    - exact (eq_trans E Hd).
    - exfalso. pose proof (eq_trans (eq_sym E) Hd) as C. discriminate C. }
  assert (forall r, partition w1 r = partition w r) as Hpart.
  { intros r. unfold partition.
    destruct (Hfiles (get_whitelist_path r)) as [E|[E E']].
    - exact (f_equal (default ([] : Dict.t)) E).
    - exact (eq_trans (f_equal (default ([] : Dict.t)) E')
                      (eq_sym (f_equal (default ([] : Dict.t)) E))). }
  case_bool_decide as Hpresent.
  - split; [exact Hkeep|]. split; [exact Hpart|]. split.
    + intros users. now rewrite Hu.
    + intros user. unfold account. now rewrite Hu.
  - unfold save_users. cbn [snd wl_files users_file].
    split; [exact Hkeep|]. split; [exact Hpart|].
    assert (users_file w = None) as Hnone.
    { rewrite <- Hu. destruct (users_file w1); [|reflexivity].
      exfalso. apply Hpresent. eauto. }
    split.
    + intros users. now rewrite Hnone.
    + intros user. unfold account. cbn [users_file]. rewrite Hnone.
      destruct (disk_ok w1 (writes w1)); [|now rewrite Hu, Hnone].
      reflexivity.
Qed.

(** X25. On a disk whose writes succeed, after the start-up code every one
    of the 13 regions has its whitelist file and [users.json] exists; files
    it had to create are empty. *)
Theorem bootstrap_creates_files (w : World) :
  disk_healthy w ->
  let w' := snd (bootstrap w) in
  (forall r, r ∈ ALL_REGIONS ->
             is_Some (wl_files w' !! get_whitelist_path r))
  /\ (forall r, wl_files w !! get_whitelist_path r = None ->
                r ∈ ALL_REGIONS ->
                wl_files w' !! get_whitelist_path r = Some ([] : Dict.t))
  /\ is_Some (users_file w')
  /\ (users_file w = None -> users_file w' = Some ∅).
Proof.
  intros Hdisk w'. subst w'.
  destruct (bootstrap_run w) as (w1 & (Hfiles & Hu & Hd & Hn) & Hmade & ->).
  assert (forall r, r ∈ ALL_REGIONS ->
                    is_Some (wl_files w1 !! get_whitelist_path r)) as Hall.
  { intros r Hr. apply (Hmade Hdisk). now apply list_elem_of_In. }
  assert (disk_ok w1 (writes w1) = true) as Hok
    by (rewrite Hd; apply Hdisk; lia).
  assert (forall r, wl_files w !! get_whitelist_path r = None ->
                    r ∈ ALL_REGIONS ->
                    wl_files w1 !! get_whitelist_path r
                    = Some ([] : Dict.t)) as Hnew.
  { intros r Hnone Hr. destruct (Hall r Hr) as [d Hd1].
    destruct (Hfiles (get_whitelist_path r)) as [E|[_ E]]; [|exact E].
    exfalso. pose proof (eq_trans (eq_sym Hd1) (eq_trans E Hnone)) as C.
    discriminate C. }
  case_bool_decide as Hpresent.
  - split; [exact Hall|]. split; [exact Hnew|]. split; [exact Hpresent|].
    intros Hnone. rewrite Hu, Hnone in Hpresent. now destruct Hpresent.
  - unfold save_users. cbn [snd wl_files users_file]. rewrite Hok.
    split; [exact Hall|]. split; [exact Hnew|]. split; eauto.
Qed.

Lemma bootstrap_creates_files_witness :
  let w' := snd (bootstrap blank_world) in
  wl_files w' !! get_whitelist_path "IND" = Some []
  /\ users_file w' = Some ∅.
Proof.
  destruct (bootstrap_creates_files blank_world) as (_ & Hnew & _ & Husers).
  - intros n _. reflexivity.
  - split.
    + apply Hnew; [reflexivity | in_registry].
    + apply Husers. reflexivity.
Defined.

(** ** Cleaning up all regions *)

Lemma clean_run region w :
  Dict.wf (partition w region) ->
  clean_expired_entries region w
  = (Z.of_nat (length (List.filter (is_expired (clock w (ticks w)))
                                   (partition w region))),
     world_after_sweep region w).
Proof.
  intros Hwf. set (now := clock w (ticks w)).
  set (before := partition w region).
  set (gone := List.filter (is_expired now) before).
  assert (Dict.del_all (map fst gone) before = List.filter (is_live now) before)
    as Hdel.
  { unfold gone. rewrite del_all_selected by exact Hwf.
    apply List.filter_ext. intros item. now rewrite is_live_negb. }
  unfold clean_expired_entries, bind, load_whitelist, time_time, ret.
  simpl. fold (partition w region). fold before. fold now. unfold Dict.items.
  change (List.filter (fun '(_, expiry) => expiry <=? now) before) with gone.
  rewrite Hdel. unfold world_after_sweep. fold now before gone.
  destruct gone as [|g gone']; simpl; [reflexivity|].
  unfold save_whitelist. simpl. now rewrite length_map.
Qed.

Lemma partition_lookup_eq w w' r :
  wl_files w' !! get_whitelist_path r = wl_files w !! get_whitelist_path r ->
  partition w' r = partition w r.
Proof. intros E. unfold partition. exact (f_equal (default ([] : Dict.t)) E). Qed.

Lemma filter_none_expired now (d : Dict.t) :
  List.filter (is_expired now) d = [] -> List.filter (is_live now) d = d.
Proof.
  intros Hnone. apply forallb_filter_id. apply forallb_forall. intros x Hx.
  rewrite is_live_negb. apply negb_true_iff.
  destruct (is_expired now x) eqn:E; [|reflexivity].
  assert (In x (List.filter (is_expired now) d)) as Hin
    by (apply filter_In; auto).
  rewrite Hnone in Hin. destruct Hin.
Qed.

Lemma world_after_sweep_facts region w :
  let w1 := world_after_sweep region w in
  clock w1 = clock w /\ ticks w1 = S (ticks w) /\ disk_ok w1 = disk_ok w
  /\ (writes w <= writes w1)%nat /\ users_file w1 = users_file w
  /\ (forall path, path <> get_whitelist_path region ->
                   wl_files w1 !! path = wl_files w !! path)
  /\ (disk_healthy w ->
      partition w1 region
      = List.filter (is_live (clock w (ticks w))) (partition w region)).
Proof.
  unfold world_after_sweep.
  destruct (List.filter _ _) as [|g gone] eqn:Hgone; cbv zeta.
  - cbn [clock ticks disk_ok writes users_file wl_files].
    repeat split; auto. intros _.
    rewrite filter_none_expired by exact Hgone. reflexivity.
  - cbn [clock ticks disk_ok writes users_file wl_files].
    repeat split; auto.
    + intros path Hne. destruct (disk_ok w (writes w)); [|reflexivity].
      now rewrite lookup_insert_ne.
    + intros Hdisk. unfold partition at 1. cbn [wl_files].
      rewrite (Hdisk (writes w)) by lia. now rewrite lookup_insert_eq.
Qed.

Lemma registry_total_ext w w' regions :
  (forall r, In r regions -> partition w' r = partition w r) ->
  registry_total w' regions = registry_total w regions.
Proof.
  induction regions as [|r regions IH]; intros H; [reflexivity|].
  change (registry_total w' (r :: regions))
    with (Z.of_nat (length (partition w' r)) + registry_total w' regions).
  change (registry_total w (r :: regions))
    with (Z.of_nat (length (partition w r)) + registry_total w regions).
  rewrite IH by (intros; apply H; now right).
  rewrite H by now left. reflexivity.
Qed.

Lemma cleanup_regions_run regions w :
  files_wf w -> disk_healthy w ->
  List.NoDup (map get_whitelist_path regions) ->
  exists n w',
    cleanup_regions regions w = (n, w')
    /\ (forall path, ~ In path (map get_whitelist_path regions) ->
                     wl_files w' !! path = wl_files w !! path)
    /\ (forall r, In r regions ->
          exists i, (i < length regions)%nat
                    /\ partition w' r
                       = List.filter (is_live (clock w (ticks w + i)))
                                     (partition w r))
    /\ n = registry_total w regions - registry_total w' regions
    /\ users_file w' = users_file w.
Proof.
  revert w. induction regions as [|region rest IH]; intros w Hwf Hdisk Hnd.
  - exists 0, w. repeat split; auto. intros r [].
  - cbn [cleanup_regions]. unfold bind at 1.
    rewrite clean_run by now apply files_wf_partition.
    set (removed := Z.of_nat (length _)).
    pose proof (world_after_sweep_facts region w) as Hfacts.
    pose proof (sweep_keeps_files_wf region w Hwf) as Hwf1.
    rewrite clean_run in Hwf1 by now apply files_wf_partition.
    cbn [snd] in Hwf1.
    set (w1 := world_after_sweep region w) in *. cbv zeta in Hfacts.
    destruct Hfacts as (Hc & Ht & Hd & Hn & Hu & Hother & Hswept).
    specialize (Hswept Hdisk).
    apply List.NoDup_cons_iff in Hnd as [Hfresh Hnd].
    assert (disk_healthy w1) as Hdisk1
      by (intros n Hle; rewrite Hd; apply Hdisk; lia).
    destruct (IH w1 Hwf1 Hdisk1 Hnd) as (total & w2 & Hrun & Hkeep & Hparts & Hsum & Hu2).
    unfold bind. rewrite Hrun. unfold ret.
    assert (forall r, In r rest -> partition w1 r = partition w r) as Hrest.
    { intros r Hin. apply partition_lookup_eq. apply Hother.
      intros E. apply Hfresh. rewrite <- E. now apply in_map. }
    assert (partition w2 region = partition w1 region) as Hhead
      by (apply partition_lookup_eq; now apply Hkeep).
    exists (removed + total), w2. split; [reflexivity|].
    split; [|split; [|split]].
    + intros path Hnot. simpl in Hnot.
      rewrite Hkeep by tauto. apply Hother. intros E. apply Hnot. now left.
    + intros r [<-|Hin].
      * exists 0%nat. split; [simpl; lia|].
        rewrite Nat.add_0_r, Hhead. exact Hswept.
      * destruct (Hparts r Hin) as (i & Hi & Hp).
        exists (S i). split; [simpl; lia|].
        rewrite Hp, Hc, Ht, (Hrest r Hin).
        now rewrite Nat.add_succ_r.
    + change (registry_total w (region :: rest))
        with (Z.of_nat (length (partition w region)) + registry_total w rest).
      change (registry_total w2 (region :: rest))
        with (Z.of_nat (length (partition w2 region))
              + registry_total w2 rest).
      rewrite Hsum, (registry_total_ext w w1 rest Hrest), Hhead, Hswept.
      pose proof (List.filter_length (is_expired (clock w (ticks w)))
                                     (partition w region)) as Hlen.
      rewrite <- (List.filter_ext (is_live (clock w (ticks w)))
                   (fun x => negb (is_expired (clock w (ticks w)) x))
                   (is_live_negb (clock w (ticks w)))) in Hlen.
      unfold removed. lia.
    + now rewrite Hu2.
Qed.

Lemma registry_paths_nodup : List.NoDup (map get_whitelist_path ALL_REGIONS).
Proof.
  vm_compute. repeat constructor; simpl; intuition discriminate.
Qed.

(** X26. A clean-up of all regions on a healthy disk, with a clock that does
    not run backwards: every entry left in a region was there before and was
    not yet expired when the clean-up began; every entry still running at the
    end of the clean-up is kept; the total returned is the number of entries
    removed over all regions; accounts are untouched. *)
Theorem cleanup_clears_expired (w : World) :
  files_wf w -> disk_healthy w -> clock_monotone w ->
  let start := clock w (ticks w) in
  let finish := clock w (ticks w + 12) in
  exists n w',
    cleanup_expired w = (n, w')
    /\ (forall r uid expiry,
          r ∈ ALL_REGIONS -> In (uid, expiry) (partition w' r) ->
          expiry > start /\ In (uid, expiry) (partition w r))
    /\ (forall r uid expiry,
          r ∈ ALL_REGIONS -> In (uid, expiry) (partition w r) ->
          expiry > finish -> In (uid, expiry) (partition w' r))
    /\ n = registry_total w ALL_REGIONS - registry_total w' ALL_REGIONS
    /\ 0 <= n
    /\ users_file w' = users_file w.
Proof.
  intros Hwf Hdisk Hmono start finish. unfold cleanup_expired.
  destruct (cleanup_regions_run ALL_REGIONS w Hwf Hdisk registry_paths_nodup)
    as (n & w' & Hrun & _ & Hparts & Hsum & Hu).
  exists n, w'. split; [exact Hrun|].
  assert (forall r, r ∈ ALL_REGIONS ->
            exists t, start <= t <= finish
                      /\ partition w' r
                         = List.filter (is_live t) (partition w r)) as Hat.
  { intros r Hr. apply list_elem_of_In in Hr.
    destruct (Hparts r Hr) as (i & Hi & Hp).
    exists (clock w (ticks w + i)). split; [|exact Hp].
    change (length ALL_REGIONS) with 13%nat in Hi.
    split; apply Hmono; lia. }
  split; [|split; [|split; [exact Hsum|split; [|exact Hu]]]].
  - intros r uid expiry Hr Hin.
    destruct (Hat r Hr) as (t & Ht & Hp). rewrite Hp in Hin.
    apply filter_In in Hin as [Hin Hlive]. simpl in Hlive.
    rewrite Z.gtb_ltb in Hlive. apply Z.ltb_lt in Hlive.
    split; [lia | exact Hin].
  - intros r uid expiry Hr Hin Hgt.
    destruct (Hat r Hr) as (t & Ht & Hp). rewrite Hp.
    apply filter_In. split; [exact Hin|]. simpl.
    rewrite Z.gtb_ltb. apply Z.ltb_lt. lia.
  - rewrite Hsum.
    assert (forall regions,
               (forall r, In r regions ->
                  exists t, partition w' r
                            = List.filter (is_live t) (partition w r)) ->
               registry_total w' regions <= registry_total w regions) as Hle.
    { induction regions as [|r regions IH]; intros H; [reflexivity|].
      change (registry_total w' (r :: regions))
        with (Z.of_nat (length (partition w' r)) + registry_total w' regions).
      change (registry_total w (r :: regions))
        with (Z.of_nat (length (partition w r)) + registry_total w regions).
      destruct (H r (or_introl eq_refl)) as (t & ->).
      pose proof (List.filter_length_le (is_live t) (partition w r)).
      specialize (IH (fun r' Hr' => H r' (or_intror Hr'))). lia. }
    specialize (Hle ALL_REGIONS). 
    assert (registry_total w' ALL_REGIONS <= registry_total w ALL_REGIONS);
      [|lia].
    apply Hle. intros r Hr. apply list_elem_of_In in Hr.
    destruct (Hat r Hr) as (t & _ & Hp). eauto.
Qed.

(** X27. When the write of a sweep fails, the whitelist file is left as it
    was, expired entries included, and the sweep still returns the number of
    expired entries it found: the result of [save_whitelist] is not looked
    at. *)
Theorem sweep_unsaved (region : string) (w : World) :
  Dict.wf (partition w region) ->
  disk_ok w (writes w) = false ->
  let now := clock w (ticks w) in
  exists w',
    clean_expired_entries region w
    = (Z.of_nat (length (List.filter (is_expired now) (partition w region))),
       w')
    /\ wl_files w' = wl_files w
    /\ partition w' region = partition w region.
Proof.
  intros Hwf Hfail now. exists (world_after_sweep region w).
  split; [now apply clean_run|].
  assert (wl_files (world_after_sweep region w) = wl_files w) as Hf.
  { unfold world_after_sweep. destruct (List.filter _ _); cbv zeta;
      cbn [wl_files]; [reflexivity | now rewrite Hfail]. }
  split; [exact Hf|]. unfold partition. now rewrite Hf.
Qed.

Lemma sweep_unsaved_witness :
  let r := clean_expired_entries "IND" (world0 (fun _ => false) rich_user) in
  fst r = 2 /\ length (partition (snd r) "IND") = 4%nat.
Proof.
  destruct (sweep_unsaved "IND" (world0 (fun _ => false) rich_user))
    as (w' & Hrun & _ & Hsame).
  - check_wf.
  - reflexivity.
  - cbv zeta. rewrite Hrun. split; [vm_compute; reflexivity|].
    cbn [snd]. rewrite Hsame. reflexivity.
Defined.

Lemma sample_files_cases path d :
  sample_files !! path = Some d ->
  d = [("111", 500); ("222", 2000); ("333", 1000); ("444", 1500)]
  \/ d = [("222", 900); ("555", 3000)].
Proof.
  unfold sample_files. rewrite lookup_insert. case_decide.
  - intros [= <-]. now left.
  - rewrite lookup_singleton. case_decide; [|discriminate].
    intros [= <-]. now right.
Qed.

Lemma world0_files_wf ok users : files_wf (world0 ok users).
Proof.
  intros path d Hd. apply sample_files_cases in Hd as [-> | ->];
    repeat constructor; simpl; intuition discriminate.
Qed.

Lemma cleanup_clears_expired_witness :
  exists w',
    cleanup_expired (world0 always_ok rich_user) = (3, w')
    /\ users_file w' = Some rich_user.
Proof.
  destruct (cleanup_clears_expired (world0 always_ok rich_user))
    as (n & w' & Hrun & _ & _ & _ & _ & Hu).
  - apply world0_files_wf.
  - intros k _. reflexivity.
  - intros i j _. reflexivity.
  - exists w'. split; [|exact Hu].
    assert (fst (cleanup_expired (world0 always_ok rich_user)) = 3) as Hn
      by (vm_compute; reflexivity).
    rewrite Hrun in Hn. cbn [fst] in Hn. now rewrite <- Hn.
Defined.

(** ** Only numeric uids are ever stored *)









(** ** The registry and its files *)

(** X29. The regions served by [/api/regions] are exactly the 13 codes the
    handlers accept, each once; so a code taken from that list is never
    answered with "Invalid region" by the per-region list. *)
Theorem regions_served_are_accepted (code : string) :
  (In code (map fst get_regions) <-> code ∈ ALL_REGIONS)
  /\ length get_regions = 13%nat
  /\ List.NoDup (map fst get_regions)
  /\ (In code (map fst get_regions) ->
      forall w, exists l w',
        list_whitelist_by_region code w = (Entries l, w')).
Proof.
  assert (In code (map fst get_regions) -> code ∈ ALL_REGIONS) as Hfwd.
  { simpl. intros H.
    repeat (destruct H as [<-|H]; [in_registry|]). destruct H. }
  split; [split; [exact Hfwd|]|split; [reflexivity|split]].
  - unfold ALL_REGIONS. intros H.
    repeat (apply elem_of_cons in H as [->|H]; [simpl; tauto|]).
    now apply elem_of_nil in H.
  - simpl. repeat constructor; simpl; intuition discriminate.
  - intros Hin w. unfold list_whitelist_by_region.
    assert (PyStr.upper code ∈ ALL_REGIONS) as Hup.
    { simpl in Hin.
      repeat (destruct Hin as [<-|Hin]; [in_registry|]). destruct Hin. }
    rewrite (bool_decide_eq_true_2 _ Hup). cbn [negb].
    unfold bind, load_whitelist, time_time, ret. cbv beta iota zeta.
    eexists. eexists. reflexivity.
Qed.







